(** * A calculator: tokenizer and recursive-descent evaluator

    Shallow embedding of [src/src/tokenizer.py] and [src/src/calculator.py].
    Characters are Latin-1 code points (the [ascii] type read as bytes
    0..255); Python's [str] methods are modelled on that range. *)

From Stdlib Require Import String Ascii List Bool ZArith Lia QArith.
From stdpp Require Import base gmap strings.
Import ListNotations.
Open Scope bool_scope.

(* ------------------------------------------------------------------ *)
(** ** Python string primitives *)

Module Py.

(** [str.isspace] on Latin-1: \t \n \x0b \x0c \r, \x1c..\x1f, space,
    \x85 and \xa0. *)
Definition is_space (c : ascii) : bool :=
  let n := nat_of_ascii c in
  ((9 <=? n) && (n <=? 13))%nat || ((28 <=? n) && (n <=? 32))%nat
  || (n =? 133)%nat || (n =? 160)%nat.

(** [str.isdigit] per character on Latin-1: 0-9 and the superscripts
    \xb2 \xb3 \xb9. *)
Definition is_digit_char (c : ascii) : bool :=
  let n := nat_of_ascii c in
  ((48 <=? n) && (n <=? 57))%nat || (n =? 178)%nat || (n =? 179)%nat
  || (n =? 185)%nat.

(** [str.isdigit]: non-empty and every character a digit. *)
Definition isdigit (s : list ascii) : bool :=
  match s with
  | [] => false
  | _ => forallb is_digit_char s
  end.

Fixpoint lstrip (s : list ascii) : list ascii :=
  match s with
  | c :: r => if is_space c then lstrip r else s
  | [] => []
  end.

(** [str.strip()] *)
Definition strip (s : list ascii) : list ascii :=
  rev (lstrip (rev (lstrip s))).

(** [s.replace(c, '')] *)
Definition remove_char (c : ascii) (s : list ascii) : list ascii :=
  List.filter (fun d => negb (Ascii.eqb d c)) s.

End Py.

(* ------------------------------------------------------------------ *)
(** ** Tokenizer ([tokenizer.py]) *)

Module Tokenizer.

(** [Tokenizer.is_digit_token]:
    [token.replace('.', '').isdigit()]. *)
Definition is_digit_token (token : string) : bool :=
  Py.isdigit (Py.remove_char "." (list_ascii_of_string token)).

Definition is_ascii_letter (c : ascii) : bool :=
  let n := nat_of_ascii c in
  ((65 <=? n) && (n <=? 90))%nat || ((97 <=? n) && (n <=? 122))%nat.

Definition is_ascii_digit (c : ascii) : bool :=
  let n := nat_of_ascii c in ((48 <=? n) && (n <=? 57))%nat.

Definition ident_start (c : ascii) : bool :=
  is_ascii_letter c || Ascii.eqb c "_".

Definition ident_char (c : ascii) : bool :=
  ident_start c || is_ascii_digit c.

(** [Tokenizer.is_identifier]:
    [re.fullmatch(r'[a-zA-Z_][a-zA-Z0-9_]*', token)]. *)
Definition is_identifier (token : string) : bool :=
  match list_ascii_of_string token with
  | c :: r => ident_start c && forallb ident_char r
  | [] => false
  end.

(** Python objects that reach the two predicates: a [str], [None] (from
    [get_current_token] at the end) or the [Tokenizer] instance itself. *)
Inductive pyobj := PyStr (s : string) | PyNone | PyTokenizer.

(** The predicates are declared in the class body with the single
    parameter [token] and no [@staticmethod]; their bodies start with
    [if not isinstance(token, str): return False]. *)
Definition is_digit_token_body (token : pyobj) : bool :=
  match token with PyStr s => is_digit_token s | _ => false end.

Definition is_identifier_body (token : pyobj) : bool :=
  match token with PyStr s => is_identifier s | _ => false end.

(** Calling a one-parameter Python function: any other number of
    positional arguments raises [TypeError]. *)
Definition call1 (body : pyobj -> bool) (args : list pyobj) : option bool :=
  match args with
  | [a] => Some (body a)
  | _ => None
  end.

(** [Tokenizer.f(x)]: looked up on the class, a plain function. *)
Definition call_via_class (body : pyobj -> bool) (x : pyobj) : option bool :=
  call1 body [x].

(** [self._tokenizer.f(x)]: looked up on an instance, a bound method, so
    the instance is passed as the first positional argument. *)
Definition call_via_instance (body : pyobj -> bool) (x : pyobj) : option bool :=
  call1 body [PyTokenizer; x].

(** *** [TOKEN_PATTERN] *)

(** Modelled from the spec: [TOKEN_PATTERN] lives in [constants.py], which
    is not part of the sources.  Spec 4.1 and 6: alternatives tried in
    order at each position: [**], [//], NUMBER := DIGIT+ ('.' DIGIT+)?,
    IDENTIFIER := (ALPHA|'_') (ALPHA|DIGIT|'_')*, then one of the single
    characters [+ - * / % = ( ) ,].  The keyword [let] is not listed in
    that order: it is lexed by the identifier alternative.  Returns the
    match and the rest. *)
Definition is_op_char (c : ascii) : bool :=
  existsb (Ascii.eqb c) ["+"; "-"; "*"; "/"; "%"; "="; "("; ")"; ","]%char.

Fixpoint span (p : ascii -> bool) (s : list ascii) : list ascii * list ascii :=
  match s with
  | c :: r => if p c then let '(a, b) := span p r in (c :: a, b) else ([], s)
  | [] => ([], [])
  end.

Definition match_number (s : list ascii) : list ascii * list ascii :=
  let '(ds, r1) := span is_ascii_digit s in
  match r1 with
  | p :: (d :: _) as r2 =>
      if Ascii.eqb p "." && is_ascii_digit d then
        let '(fs, r3) := span is_ascii_digit r2 in (ds ++ p :: fs, r3)
      else (ds, r1)
  | _ => (ds, r1)
  end.

(** The alternatives after the two-character operators. *)
Definition match_single (c : ascii) (r : list ascii)
  : option (list ascii * list ascii) :=
  if is_ascii_digit c then Some (match_number (c :: r))
  else if ident_start c then Some (span ident_char (c :: r))
  else if is_op_char c then Some ([c], r)
  else None.

Definition match_token (s : list ascii) : option (list ascii * list ascii) :=
  match s with
  | [] => None
  | c :: r =>
      match r with
      | d :: r' =>
          if (Ascii.eqb c "*" && Ascii.eqb d "*") || (Ascii.eqb c "/" && Ascii.eqb d "/")
          then Some ([c; d], r')
          else match_single c r
      | [] => match_single c r
      end
  end.

(** [re.findall(TOKEN_PATTERN, s)]: scan left to right; where no
    alternative matches, the character is skipped.  [fuel] is the length
    of the string. *)
Fixpoint findall (fuel : nat) (s : list ascii) : list (list ascii) :=
  match fuel with
  | O => []
  | S f =>
      match s with
      | [] => []
      | _ :: r =>
          match match_token s with
          | Some (t, rest) => t :: findall f rest
          | None => findall f r
          end
      end
  end.

(** [Tokenizer.tokenize]; [None] is the [ValueError("Пустое выражение")].
    The [isinstance(expression, str)] guard is discharged by the type. *)
Definition tokenize (expression : string) : option (list string) :=
  let e := Py.strip (list_ascii_of_string expression) in
  match e with
  | [] => None
  | _ =>
      let e' := Py.remove_char " " e in
      Some (map string_of_list_ascii (findall (length e') e'))
  end.

End Tokenizer.

(* ------------------------------------------------------------------ *)
(** ** Numbers: Python's [int] and [float]

    The evaluator's values are Python [int]s and [float]s, and the
    [complex] numbers that [**] produces for a negative base and a
    fractional exponent (then carried on by the other operators).  IEEE
    doubles are left abstract: [FloatSem] bundles the float and complex
    operations the code reaches, and every theorem below holds for any
    choice of them.  An operation returns [None] where Python raises
    (OverflowError, ZeroDivisionError, ValueError inside a built-in). *)

Inductive num (F : Type) := VInt (z : Z) | VFloat (f : F) | VComplex (re im : F).
Arguments VInt {F} z.
Arguments VFloat {F} f.
Arguments VComplex {F} re im.

Record FloatSem := {
  flt : Type;
  (** [float(n)] for an [int] n (OverflowError when too large) *)
  flt_of_int : Z -> option flt;
  (** [float(token)] (ValueError on a malformed literal) *)
  flt_of_literal : string -> option flt;
  flt_add : flt -> flt -> flt;
  flt_sub : flt -> flt -> flt;
  flt_mul : flt -> flt -> flt;
  (** [x / y] for a nonzero divisor *)
  flt_div : flt -> flt -> flt;
  flt_neg : flt -> flt;
  (** [x == 0] *)
  flt_is_zero : flt -> bool;
  (** [int / int] for a nonzero divisor (correctly rounded in CPython;
      OverflowError when too large) *)
  int_truediv : Z -> Z -> option flt;
  (** [float.__pow__] where the result is a float, i.e. outside the case
      of a finite negative base and a finite fractional exponent *)
  flt_pow : flt -> flt -> option flt;
  (** [0.0], the imaginary part of [complex(x)] for a real [x] *)
  flt_zero : flt;
  (** [x < 0.0] *)
  flt_lt_zero : flt -> bool;
  (** [math.isfinite(x)] *)
  flt_is_finite : flt -> bool;
  (** [x == math.floor(x)] *)
  flt_is_integral : flt -> bool;
  (** [float(n)] of an [int] is a whole number *)
  flt_of_int_integral : forall z x, flt_of_int z = Some x -> flt_is_integral x = true;
  (** [complex] [+], [-], [*] on (real, imag) pairs *)
  cpx_add : flt * flt -> flt * flt -> flt * flt;
  cpx_sub : flt * flt -> flt * flt -> flt * flt;
  cpx_mul : flt * flt -> flt * flt -> flt * flt;
  (** [complex] [/] for a nonzero divisor *)
  cpx_div : flt * flt -> flt * flt -> flt * flt;
  (** [complex.__pow__] (ZeroDivisionError, OverflowError) *)
  cpx_pow : flt * flt -> flt * flt -> option (flt * flt);
  (** the callables of the function table, applied to [*arguments] *)
  builtin : string -> list (num flt) -> option (num flt)
}.

(** Every failure of the calculator.  All are [ValueError]s with the
    message of [ERROR_MESSAGES] or of the literal in the code, except the
    last three, which are Python's own exceptions. *)
Inductive error :=
| InvalidExpression
| EmptyExpression
| TokenizerEmpty
| UnexpectedEnd
| UnexpectedToken (expected actual : string)
| InvalidNumber (token : string)
| ExpectedOperand
| UnexpectedOperand (token : string)
| UnknownFunction (name : string)
| FunctionCallFailed (name : string)
| UnknownVariable (name : string)
| DivisionByZero
| IntegerDivisionByZero
| ModuloByZero
| IntegersOnly (op : string)
| InvalidIdentifier
| UnprocessedTokens
(** [TypeError]: a function called with the wrong number of arguments *)
| WrongArgumentCount
(** [ZeroDivisionError] / [OverflowError] raised by Python arithmetic *)
| ArithmeticError
(** [RecursionError] *)
| RecursionLimit.

(* ------------------------------------------------------------------ *)
(** ** The evaluator ([calculator.py]) *)

Module Calc.

(** The built-in names of [initialize_functions]. *)
Definition function_names : list string :=
  ["abs"; "sqrt"; "pow"; "max"; "min"; "sin"; "cos"; "tan"; "log";
   "log10"; "exp"]%string.

Section Evaluator.

Variable fs : FloatSem.

Local Abbreviation F := (flt fs).
Local Abbreviation value := (num (flt fs)).

(** The fields of a [Calculator] object the evaluator touches. *)
Record calc := mk_calc {
  variables : gmap string value;
  tokens : list string;
  current_position : nat
}.

(** Methods raise exceptions after possibly mutating [self]: a failure
    keeps the state reached so far. *)
Definition M (A : Type) : Type := calc -> (error + A) * calc.

Definition ret {A} (a : A) : M A := fun st => (inr a, st).
Definition raise {A} (e : error) : M A := fun st => (inl e, st).
Definition bind {A B} (m : M A) (k : A -> M B) : M B :=
  fun st => match m st with
            | (inl e, st') => (inl e, st')
            | (inr a, st') => k a st'
            end.
Definition lift {A} (r : error + A) : M A := fun st => (r, st).

Local Notation "'let*' x ':=' m 'in' k" := (bind m (fun x => k))
  (at level 200, x name, m at level 100, k at level 200).

(** A call of a one-parameter predicate; a [TypeError] when the argument
    count is wrong. *)
Definition call_pred (r : option bool) : M bool :=
  match r with Some b => ret b | None => raise WrongArgumentCount end.

(** *** Arithmetic on [int | float | complex] *)

(** [float(v)] for an [int] or a [float] *)
Definition to_float (v : value) : option F :=
  match v with
  | VInt z => flt_of_int fs z
  | VFloat f => Some f
  | VComplex _ _ => None
  end.

(** [complex(v)] *)
Definition to_complex (v : value) : option (F * F) :=
  match v with
  | VInt z => match flt_of_int fs z with Some x => Some (x, flt_zero fs) | None => None end
  | VFloat f => Some (f, flt_zero fs)
  | VComplex re im => Some (re, im)
  end.

Definition is_complex (v : value) : bool :=
  match v with VComplex _ _ => true | _ => false end.

Definition of_pair (c : F * F) : value := VComplex (fst c) (snd c).

(** [a op b] for [+], [-], [*]: two [int]s give an [int]; with a
    [complex] operand both are converted to [complex]; otherwise both are
    converted to [float]. *)
Definition arith (zop : Z -> Z -> Z) (fop : F -> F -> F)
  (cop : F * F -> F * F -> F * F) (a b : value) : error + value :=
  match a, b with
  | VInt x, VInt y => inr (VInt (zop x y))
  | _, _ =>
      if is_complex a || is_complex b then
        match to_complex a, to_complex b with
        | Some x, Some y => inr (of_pair (cop x y))
        | _, _ => inl ArithmeticError
        end
      else
        match to_float a, to_float b with
        | Some x, Some y => inr (VFloat (fop x y))
        | _, _ => inl ArithmeticError
        end
  end.

(** [a / b], divisor nonzero: true division, a [float], or a [complex]
    when an operand is [complex]. *)
Definition truediv (a b : value) : error + value :=
  match a, b with
  | VInt x, VInt y =>
      match int_truediv fs x y with
      | Some r => inr (VFloat r)
      | None => inl ArithmeticError
      end
  | _, _ =>
      if is_complex a || is_complex b then
        match to_complex a, to_complex b with
        | Some x, Some y => inr (of_pair (cpx_div fs x y))
        | _, _ => inl ArithmeticError
        end
      else
        match to_float a, to_float b with
        | Some x, Some y => inr (VFloat (flt_div fs x y))
        | _, _ => inl ArithmeticError
        end
  end.

(** [complex.__pow__], both operands converted to [complex]. *)
Definition complex_power (a b : value) : error + value :=
  match to_complex a, to_complex b with
  | Some x, Some y =>
      match cpx_pow fs x y with
      | Some r => inr (of_pair r)
      | None => inl ArithmeticError
      end
  | _, _ => inl ArithmeticError
  end.

(** [float.__pow__], both operands converted to [float]: a finite
    negative base and a finite fractional exponent are handed to
    [complex.__pow__] ("Negative numbers raised to fractional powers
    become complex"); otherwise the result is a [float]. *)
Definition float_power (a b : value) : error + value :=
  match to_float a, to_float b with
  | Some x, Some y =>
      if flt_is_finite fs x && flt_lt_zero fs x && flt_is_finite fs y
         && negb (flt_is_integral fs y)
      then complex_power (VFloat x) (VFloat y)
      else
        match flt_pow fs x y with
        | Some r => inr (VFloat r)
        | None => inl ArithmeticError
        end
  | _, _ => inl ArithmeticError
  end.

(** [a ** b]: [int ** int] with a non-negative exponent is an [int];
    with a negative exponent CPython hands both operands to
    [float.__pow__], as it does for an [int] and a [float]; a [complex]
    operand goes to [complex.__pow__]. *)
Definition power (a b : value) : error + value :=
  match a, b with
  | VInt x, VInt y => if (0 <=? y)%Z then inr (VInt (Z.pow x y)) else float_power a b
  | _, _ => if is_complex a || is_complex b then complex_power a b else float_power a b
  end.

(** unary [-operand] *)
Definition negate (v : value) : value :=
  match v with
  | VInt z => VInt (- z)
  | VFloat f => VFloat (flt_neg fs f)
  | VComplex re im => VComplex (flt_neg fs re) (flt_neg fs im)
  end.

(** [right_operand == 0] *)
Definition is_zero (v : value) : bool :=
  match v with
  | VInt z => Z.eqb z 0
  | VFloat f => flt_is_zero fs f
  | VComplex re im => flt_is_zero fs re && flt_is_zero fs im
  end.

(** One step of the loop of [handle_multiplicative_expression]: the
    [if]/[elif] chain on [token], updating [result]. *)
Definition multiplicative_step (token : string) (result right_operand : value)
  : error + value :=
  if String.eqb token "*" then arith Z.mul (flt_mul fs) (cpx_mul fs) result right_operand
  else if String.eqb token "/" then
    if is_zero right_operand then inl DivisionByZero
    else truediv result right_operand
  else if String.eqb token "//" then
    if is_zero right_operand then inl IntegerDivisionByZero
    else match result, right_operand with
         | VInt a, VInt b => inr (VInt (Z.div a b))
         | _, _ => inl (IntegersOnly "//")
         end
  else if String.eqb token "%" then
    if is_zero right_operand then inl ModuloByZero
    else match result, right_operand with
         | VInt a, VInt b => inr (VInt (Z.modulo a b))
         | _, _ => inl (IntegersOnly "%")
         end
  else inr result.

(** One step of the loop of [handle_additive_expression]. *)
Definition additive_step (token : string) (result right_operand : value)
  : error + value :=
  if String.eqb token "+" then arith Z.add (flt_add fs) (cpx_add fs) result right_operand
  else arith Z.sub (flt_sub fs) (cpx_sub fs) result right_operand.

Definition is_multiplicative_op (t : string) : bool :=
  String.eqb t "*" || String.eqb t "/" || String.eqb t "//" || String.eqb t "%".

Definition is_additive_op (t : string) : bool :=
  String.eqb t "+" || String.eqb t "-".

(** *** [parse_number] *)

Fixpoint decimal_value (acc : Z) (s : list ascii) : Z :=
  match s with
  | c :: r => decimal_value (10 * acc + Z.of_nat (nat_of_ascii c - 48)) r
  | [] => acc
  end.

(** [int(token)] on the tokens [is_digit_token] lets through without a
    ['.']: a run of [str.isdigit] characters; [int] accepts the decimal
    digits 0-9 and rejects the superscripts. *)
Definition python_int (token : string) : option Z :=
  let s := list_ascii_of_string token in
  match s with
  | [] => None
  | _ => if forallb Tokenizer.is_ascii_digit s then Some (decimal_value 0 s)
         else None
  end.

Definition parse_number (token : string) : error + value :=
  if existsb (fun c => Ascii.eqb c ".") (list_ascii_of_string token) then
    match flt_of_literal fs token with
    | Some f => inr (VFloat f)
    | None => inl (InvalidNumber token)
    end
  else
    match python_int token with
    | Some z => inr (VInt z)
    | None => inl (InvalidNumber token)
    end.

(** *** Cursor primitives *)

Definition get_current_token : M (option string) :=
  fun st => (inr (nth_error (tokens st) (current_position st)), st).

Definition consume_token (expected_token : option string) : M string :=
  fun st =>
    match nth_error (tokens st) (current_position st) with
    | None => (inl UnexpectedEnd, st)
    | Some current_token =>
        let mismatch :=
          match expected_token with
          | Some e => negb (String.eqb e "") && negb (String.eqb current_token e)
          | None => false
          end in
        if mismatch then
          (inl (UnexpectedToken (default "" expected_token) current_token), st)
        else
          (inr current_token,
           mk_calc (variables st) (tokens st) (S (current_position st)))
    end.

(** The tokens left: a bound on the iterations of the [while True] loops,
    each of which consumes a token. *)
Definition loop_bound : M nat :=
  fun st => (inr (S (length (tokens st) - current_position st)), st).

Definition handle_variable_reference (variable_name : string) : M value :=
  fun st =>
    match variables st !! variable_name with
    | Some v => (inr v, st)
    | None => (inl (UnknownVariable variable_name), st)
    end.

Definition store_variable (name : string) (v : value) : M unit :=
  fun st => (inr tt, mk_calc (<[name := v]> (variables st)) (tokens st)
                              (current_position st)).

Definition token_is (t : option string) (s : string) : bool :=
  match t with Some t => String.eqb t s | None => false end.

(** *** The recursive descent

    One function per method.  [fuel] is the call depth left, Python's
    recursion limit; each method call costs one unit. *)

Fixpoint handle_expression (fuel : nat) : M value :=
  match fuel with
  | O => raise RecursionLimit
  | S f => handle_assignment f
  end

with handle_assignment (fuel : nat) : M value :=
  match fuel with
  | O => raise RecursionLimit
  | S f =>
      let* token := get_current_token in
      if token_is token "let" then
        let* _ := consume_token (Some "let"%string) in
        let* variable_name := get_current_token in
        let arg := match variable_name with
                   | Some s => Tokenizer.PyStr s
                   | None => Tokenizer.PyNone
                   end in
        (* self._tokenizer.is_identifier(variable_name) *)
        let* ok := call_pred (Tokenizer.call_via_instance
                                Tokenizer.is_identifier_body arg) in
        match ok, variable_name with
        | true, Some name =>
            let* _ := consume_token None in
            let* _ := consume_token (Some "="%string) in
            let* v := handle_expression f in
            let* _ := store_variable name v in
            ret v
        | _, _ => raise InvalidIdentifier
        end
      else handle_additive_expression f
  end

with handle_additive_expression (fuel : nat) : M value :=
  match fuel with
  | O => raise RecursionLimit
  | S f =>
      let* result := handle_multiplicative_expression f in
      let* n := loop_bound in
      (fix loop (n : nat) (result : value) : M value :=
         match n with
         | O => raise RecursionLimit
         | S n' =>
             let* token := get_current_token in
             match token with
             | Some t =>
                 if is_additive_op t then
                   let* _ := consume_token None in
                   let* right_operand := handle_multiplicative_expression f in
                   let* r := lift (additive_step t result right_operand) in
                   loop n' r
                 else ret result
             | None => ret result
             end
         end) n result
  end

with handle_multiplicative_expression (fuel : nat) : M value :=
  match fuel with
  | O => raise RecursionLimit
  | S f =>
      let* result := handle_power_expression f in
      let* n := loop_bound in
      (fix loop (n : nat) (result : value) : M value :=
         match n with
         | O => raise RecursionLimit
         | S n' =>
             let* token := get_current_token in
             match token with
             | Some t =>
                 if is_multiplicative_op t then
                   let* _ := consume_token None in
                   let* right_operand := handle_power_expression f in
                   let* r := lift (multiplicative_step t result right_operand) in
                   loop n' r
                 else ret result
             | None => ret result
             end
         end) n result
  end

with handle_power_expression (fuel : nat) : M value :=
  match fuel with
  | O => raise RecursionLimit
  | S f =>
      let* left_operand := handle_unary_expression f in
      let* token := get_current_token in
      if token_is token "**" then
        let* _ := consume_token (Some "**"%string) in
        let* right_operand := handle_power_expression f in
        lift (power left_operand right_operand)
      else ret left_operand
  end

with handle_unary_expression (fuel : nat) : M value :=
  match fuel with
  | O => raise RecursionLimit
  | S f =>
      let* token := get_current_token in
      match token with
      | Some t =>
          if is_additive_op t then
            let* _ := consume_token None in
            let* operand := handle_unary_expression f in
            if String.eqb t "+" then ret operand else ret (negate operand)
          else handle_primary_expression f
      | None => handle_primary_expression f
      end
  end

with handle_primary_expression (fuel : nat) : M value :=
  match fuel with
  | O => raise RecursionLimit
  | S f =>
      let* token := get_current_token in
      match token with
      | None => raise ExpectedOperand
      | Some t =>
          if String.eqb t "(" then
            let* _ := consume_token (Some "("%string) in
            let* result := handle_expression f in
            let* _ := consume_token (Some ")"%string) in
            ret result
          else
            (* Tokenizer.is_digit_token(token) *)
            let* is_num := call_pred (Tokenizer.call_via_class
                              Tokenizer.is_digit_token_body (Tokenizer.PyStr t)) in
            if is_num then
              let* number_token := consume_token None in
              lift (parse_number number_token)
            else
              (* Tokenizer.is_identifier(token) *)
              let* is_id := call_pred (Tokenizer.call_via_class
                              Tokenizer.is_identifier_body (Tokenizer.PyStr t)) in
              if is_id then
                let* identifier := consume_token None in
                let* next_token := get_current_token in
                if token_is next_token "(" then handle_function_call f identifier
                else handle_variable_reference identifier
              else raise (UnexpectedOperand t)
      end
  end

with handle_function_call (fuel : nat) (function_name : string) : M value :=
  match fuel with
  | O => raise RecursionLimit
  | S f =>
      if negb (existsb (String.eqb function_name) function_names) then
        raise (UnknownFunction function_name)
      else
        let* _ := consume_token (Some "("%string) in
        let* current := get_current_token in
        let* arguments :=
          if token_is current ")" then ret []
          else
            let* first := handle_expression f in
            let* n := loop_bound in
            (fix loop (n : nat) (acc : list value) : M (list value) :=
               match n with
               | O => raise RecursionLimit
               | S n' =>
                   let* token := get_current_token in
                   if token_is token "," then
                     let* _ := consume_token (Some ","%string) in
                     let* a := handle_expression f in
                     loop n' (acc ++ [a])
                   else ret acc
               end) n [first] in
        let* _ := consume_token (Some ")"%string) in
        match builtin fs function_name arguments with
        | Some v => ret v
        | None => raise (FunctionCallFailed function_name)
        end
  end.

(** The call depth [calculate] allows on a token list: every method call
    of the descent either consumes a token or is one of the seven levels
    from [handle_expression] down to [handle_primary_expression]. *)
Definition recursion_budget (toks : list string) : nat :=
  8 * length toks + 8.

(** [Calculator.calculate]; the [isinstance(expression, str)] guard is
    discharged by the type. *)
Definition calculate (expression : string) : M value :=
  match Py.strip (list_ascii_of_string expression) with
  | [] => raise EmptyExpression
  | _ =>
      match Tokenizer.tokenize expression with
      | None => raise TokenizerEmpty
      | Some toks =>
          fun st =>
            let st0 := mk_calc (variables st) toks 0 in
            bind (handle_expression (recursion_budget toks))
              (fun result st1 =>
                 if negb (Nat.eqb (current_position st1) (length (tokens st1)))
                 then (inl UnprocessedTokens, st1)
                 else (inr result, st1)) st0
      end
  end.

End Evaluator.
End Calc.

(* ------------------------------------------------------------------ *)
(** ** A concrete float model for running the evaluator

    Exact rationals stand in for IEEE doubles: no rounding, no overflow.
    It is used to run the evaluator on concrete inputs; the theorems
    quantify over every [FloatSem]. *)

Module ExactFloat.

Definition digits_ok (s : list ascii) : bool :=
  forallb Tokenizer.is_ascii_digit s.

(** [float(token)] on strings of digits and points: exactly one point
    and at least one digit ("1.", ".5" and "1.5" are accepted). *)
Definition of_literal (token : string) : option Q :=
  let s := list_ascii_of_string token in
  let '(ip, rest) := Tokenizer.span Tokenizer.is_ascii_digit s in
  match rest with
  | "."%char :: fp =>
      if digits_ok fp && negb (Nat.eqb (length ip + length fp) 0) then
        Some (Qred (Qmake (Calc.decimal_value 0 (ip ++ fp))
                          (Pos.of_nat (10 ^ length fp))))
      else None
  | _ => None
  end.

Definition pow (x y : Q) : option Q :=
  let y' := Qred y in
  if Pos.eqb (Qden y') 1 then
    if Qeq_bool x 0 && (Qnum y' <? 0)%Z then None
    else Some (Qred (Qpower x (Qnum y')))
  else None.

(** Complex numbers as (real, imag) pairs of rationals. *)
Definition cadd (x y : Q * Q) : Q * Q :=
  (Qred (fst x + fst y), Qred (snd x + snd y))%Q.
Definition csub (x y : Q * Q) : Q * Q :=
  (Qred (fst x - fst y), Qred (snd x - snd y))%Q.
Definition cmul (x y : Q * Q) : Q * Q :=
  (Qred (fst x * fst y - snd x * snd y), Qred (fst x * snd y + snd x * fst y))%Q.
Definition cdiv (x y : Q * Q) : Q * Q :=
  let n := (fst y * fst y + snd y * snd y)%Q in
  (Qred ((fst x * fst y + snd x * snd y) / n),
   Qred ((snd x * fst y - fst x * snd y) / n))%Q.

(** The square root of a rational that is a square of rationals. *)
Definition qsqrt (x : Q) : option Q :=
  let x' := Qred x in
  let n := Z.sqrt (Qnum x') in
  let d := Z.sqrt (Zpos (Qden x')) in
  if Z.eqb (n * n) (Qnum x') && Z.eqb (d * d) (Zpos (Qden x'))
  then Some (n # Z.to_pos d) else None.

(** [x ** y] for complex [x] and real [y], where the result is rational:
    a whole exponent, or a negative real base that is a square with a
    half-integral exponent, [(-a) ** (k/2) = sqrt(a)^k * i^k]; [None]
    elsewhere, and for zero to a negative power. *)
Definition cpow (x y : Q * Q) : option (Q * Q) :=
  if negb (Qeq_bool (snd y) 0) then None else
  let e := Qred (fst y) in
  if Pos.eqb (Qden e) 1 then
    if (0 <=? Qnum e)%Z then Some (Nat.iter (Z.to_nat (Qnum e)) (cmul x) (1, 0)%Q)
    else if Qeq_bool (fst x) 0 && Qeq_bool (snd x) 0 then None
    else Some (cdiv (1, 0)%Q (Nat.iter (Z.to_nat (- Qnum e)) (cmul x) (1, 0)%Q))
  else if Pos.eqb (Qden e) 2 && Qeq_bool (snd x) 0 && negb (Qle_bool 0 (fst x)) then
    match qsqrt (- fst x)%Q with
    | Some r =>
        let m := Qred (Qpower r (Qnum e)) in
        Some (if Z.eqb (Z.modulo (Qnum e) 4) 1 then (0, m) else (0, Qred (- m)))%Q
    | None => None
    end
  else None.

Definition call_builtin (name : string) (args : list (num Q)) : option (num Q) :=
  match name, args with
  | "abs"%string, [VInt z] => Some (VInt (Z.abs z))
  | "max"%string, VInt z :: zs =>
      fold_left (fun acc a => match acc, a with
                              | Some (VInt m), VInt b => Some (VInt (Z.max m b))
                              | _, _ => None end) zs (Some (VInt z))
  | "min"%string, VInt z :: zs =>
      fold_left (fun acc a => match acc, a with
                              | Some (VInt m), VInt b => Some (VInt (Z.min m b))
                              | _, _ => None end) zs (Some (VInt z))
  | _, _ => None
  end.

Definition sem : FloatSem := {|
  flt := Q;
  flt_of_int := fun z => Some (inject_Z z);
  flt_of_literal := of_literal;
  flt_add := fun x y => Qred (x + y);
  flt_sub := fun x y => Qred (x - y);
  flt_mul := fun x y => Qred (x * y);
  flt_div := fun x y => Qred (x / y);
  flt_neg := fun x => Qred (- x);
  flt_is_zero := fun x => Qeq_bool x 0;
  int_truediv := fun a b => Some (Qred (inject_Z a / inject_Z b));
  flt_pow := pow;
  flt_zero := 0%Q;
  flt_lt_zero := fun x => negb (Qle_bool 0 x);
  flt_is_finite := fun _ => true;
  flt_is_integral := fun x => Z.eqb (Z.modulo (Qnum x) (Zpos (Qden x))) 0;
  flt_of_int_integral := ltac:(intros z x H; injection H as <-; cbn;
                               rewrite Z.mod_1_r; reflexivity);
  cpx_add := cadd;
  cpx_sub := csub;
  cpx_mul := cmul;
  cpx_div := cdiv;
  cpx_pow := cpow;
  builtin := call_builtin
|}.

End ExactFloat.

(** A fresh [Calculator()]: no variables, no tokens, cursor at 0. *)
Definition fresh (fs : FloatSem) : Calc.calc fs := Calc.mk_calc fs ∅ [] 0.

Definition run (expression : string) :=
  fst (Calc.calculate ExactFloat.sem expression (fresh ExactFloat.sem)).

(** Settles an equation between closed terms by evaluating each side in
    the VM; the types (such as [Calc.calc ExactFloat.sem]) are left as
    they are. *)
Ltac vm_eq :=
  lazymatch goal with
  | |- ?l = ?r => vm_compute l; vm_compute r; reflexivity
  | |- _ => vm_compute; reflexivity
  end.


(* ------------------------------------------------------------------ *)
(** ** Notions used in the statements *)

(** [m] relates the state before a call to the state after it by [R],
    whether it returns or raises. *)
Definition keeps (fs : FloatSem) (R : Calc.calc fs -> Calc.calc fs -> Prop)
  {A} (m : Calc.M fs A) : Prop :=
  forall st, R st (snd (m st)).

(** [isinstance(v, float)] *)
Definition is_float {F} (v : num F) : bool :=
  match v with VFloat _ => true | _ => false end.

(** The spec's NUMBER := DIGIT+ ('.' DIGIT+)?, the shape claimed for
    [is_digit_token]. *)
Definition spec_number_shape (token : string) : bool :=
  let '(ds, r) := Tokenizer.span Tokenizer.is_ascii_digit
                    (list_ascii_of_string token) in
  match ds with [] => false | _ => true end &&
  match r with
  | [] => true
  | "."%char :: fr =>
      match fr with [] => false | _ => true end
      && forallb Tokenizer.is_ascii_digit fr
  | _ => false
  end.

(** [''.join(tokens)], as characters. *)
Definition reassemble (toks : list string) : list ascii :=
  concat (map list_ascii_of_string toks).

(** The input with every whitespace character removed. *)
Definition without_whitespace (s : string) : list ascii :=
  List.filter (fun c => negb (Py.is_space c)) (list_ascii_of_string s).

(** Letters, digits, [_] and the operator and punctuation characters:
    the characters that start a token (the point is not among them). *)
Definition in_token_alphabet (c : ascii) : bool :=
  Tokenizer.ident_char c || Tokenizer.is_op_char c.

(** A character a token may contain: the alphabet above, or the point of
    a decimal number. *)
Definition token_char (c : ascii) : Prop := in_token_alphabet c = true \/ c = "."%char.

(* ------------------------------------------------------------------ *)
(** ** The [while True] loops, named

    The loops of [handle_additive_expression],
    [handle_multiplicative_expression] and [handle_function_call] are
    anonymous [fix]es inside the methods.  The same terms, named here so
    that lemmas can speak about one iteration; [Calc]'s methods unfold to
    them (lemmas [multiplicative_unfold] and the like below). *)

Module Loops.

Definition mul_loop (fs : FloatSem) (f : nat)
  : nat -> num (flt fs) -> Calc.M fs (num (flt fs)) :=
  fix loop (n : nat) (result : num (flt fs)) : Calc.M fs (num (flt fs)) :=
    match n with
    | O => Calc.raise fs RecursionLimit
    | S n' =>
        Calc.bind fs (Calc.get_current_token fs) (fun token =>
        match token with
        | Some t =>
            if Calc.is_multiplicative_op t then
              Calc.bind fs (Calc.consume_token fs None) (fun _ =>
              Calc.bind fs (Calc.handle_power_expression fs f) (fun right_operand =>
              Calc.bind fs (Calc.lift fs (Calc.multiplicative_step fs t result right_operand))
                (fun r => loop n' r)))
            else Calc.ret fs result
        | None => Calc.ret fs result
        end)
    end.

Definition add_loop (fs : FloatSem) (f : nat)
  : nat -> num (flt fs) -> Calc.M fs (num (flt fs)) :=
  fix loop (n : nat) (result : num (flt fs)) : Calc.M fs (num (flt fs)) :=
    match n with
    | O => Calc.raise fs RecursionLimit
    | S n' =>
        Calc.bind fs (Calc.get_current_token fs) (fun token =>
        match token with
        | Some t =>
            if Calc.is_additive_op t then
              Calc.bind fs (Calc.consume_token fs None) (fun _ =>
              Calc.bind fs (Calc.handle_multiplicative_expression fs f) (fun right_operand =>
              Calc.bind fs (Calc.lift fs (Calc.additive_step fs t result right_operand))
                (fun r => loop n' r)))
            else Calc.ret fs result
        | None => Calc.ret fs result
        end)
    end.

Definition args_loop (fs : FloatSem) (f : nat)
  : nat -> list (num (flt fs)) -> Calc.M fs (list (num (flt fs))) :=
  fix loop (n : nat) (acc : list (num (flt fs))) : Calc.M fs (list (num (flt fs))) :=
    match n with
    | O => Calc.raise fs RecursionLimit
    | S n' =>
        Calc.bind fs (Calc.get_current_token fs) (fun token =>
        if Calc.token_is token "," then
          Calc.bind fs (Calc.consume_token fs (Some ","%string)) (fun _ =>
          Calc.bind fs (Calc.handle_expression fs f) (fun a => loop n' (acc ++ [a])))
        else Calc.ret fs acc)
    end.

End Loops.

(* ------------------------------------------------------------------ *)
(** ** The public accessors and the interactive loop ([main.py]) *)

Module Main.

(** [str.lower()] on Latin-1: A-Z and the accented capitals
    \xc0-\xde except the multiplication sign \xd7. *)
Definition lower_char (c : ascii) : ascii :=
  let n := nat_of_ascii c in
  if ((65 <=? n) && (n <=? 90))%nat
     || ((192 <=? n) && (n <=? 222) && negb (n =? 215))%nat
  then ascii_of_nat (n + 32) else c.

Definition lower (s : list ascii) : list ascii := map lower_char s.

Fixpoint is_prefix (p s : list ascii) : bool :=
  match p, s with
  | [], _ => true
  | c :: p', d :: s' => Ascii.eqb c d && is_prefix p' s'
  | _ :: _, [] => false
  end.

(** [needle in hay] for two strings: a substring test. *)
Fixpoint contains (hay needle : list ascii) : bool :=
  is_prefix needle hay
  || match hay with [] => false | _ :: hay' => contains hay' needle end.

(** Python's order on [str]: lexicographic on code points. *)
Fixpoint str_leb (a b : list ascii) : bool :=
  match a, b with
  | [], _ => true
  | _ :: _, [] => false
  | x :: a', y :: b' =>
      if (nat_of_ascii x <? nat_of_ascii y)%nat then true
      else if (nat_of_ascii x =? nat_of_ascii y)%nat then str_leb a' b'
      else false
  end.

Fixpoint insert_sorted (x : string) (l : list string) : list string :=
  match l with
  | [] => [x]
  | y :: r =>
      if str_leb (list_ascii_of_string x) (list_ascii_of_string y) then x :: l
      else y :: insert_sorted x r
  end.

(** [sorted(names)] *)
Definition sorted (l : list string) : list string := fold_right insert_sorted [] l.

Section Session.

Variable fs : FloatSem.

Local Abbreviation value := (num (flt fs)).

(** [Calculator.get_variables]: [self._variables.copy()]. *)
Definition get_variables (st : Calc.calc fs) : gmap string value :=
  Calc.variables fs st.

(** [Calculator.get_available_functions]: the keys of the table built by
    [initialize_functions], in insertion order. *)
Definition get_available_functions : list string := Calc.function_names.

(** [Calculator.clear_variables] *)
Definition clear_variables (st : Calc.calc fs) : Calc.calc fs :=
  Calc.mk_calc fs ∅ (Calc.tokens fs st) (Calc.current_position fs st).

(** [Calculator.get_variable_value]: [self._variables.get(name)]. *)
Definition get_variable_value (st : Calc.calc fs) (name : string) : option value :=
  Calc.variables fs st !! name.

(** What one iteration of [main] prints. *)
Inductive output :=
(** "Выход из программы" *)
| Goodbye
(** "Переменные:" and one line per variable *)
| VariablesListed (vars : gmap string value)
(** "Переменные не объявлены" *)
| NoVariables
(** "Доступные функции: ..." *)
| FunctionsListed (names : list string)
(** "Все переменные очищены" *)
| VariablesCleared
(** "Результат: ..." *)
| Result (v : value)
(** "Ошибка: ...", for a [ValueError] *)
| Error (e : error)
(** "Неизвестная ошибка: ...", for any other [Exception]; [None] is the
    [EOFError] [input] raises once the input is exhausted *)
| UnknownError (e : option error).

(** The failures that are [ValueError]s; the others are [TypeError],
    [ZeroDivisionError]/[OverflowError] and [RecursionError]. *)
Definition is_value_error (e : error) : bool :=
  match e with
  | WrongArgumentCount | ArithmeticError | RecursionLimit => false
  | _ => true
  end.

(** One iteration of the [while True] loop of [main]: what it prints,
    whether the loop goes on, and the calculator afterwards.  [None] is
    end of input. *)
Definition main_step (st : Calc.calc fs) (input : option string)
  : list output * bool * Calc.calc fs :=
  match input with
  | None => ([UnknownError None], true, st)
  | Some line =>
      let user_input := Py.strip (list_ascii_of_string line) in
      if contains (list_ascii_of_string "exit") (lower user_input) then
        ([Goodbye], false, st)
      else match user_input with
      | [] => ([], true, st)
      | _ =>
          let u := string_of_list_ascii user_input in
          if String.eqb u "vars" then
            let variables := get_variables st in
            if bool_decide (variables = ∅) then ([NoVariables], true, st)
            else ([VariablesListed variables], true, st)
          else if String.eqb u "funcs" then
            ([FunctionsListed (sorted get_available_functions)], true, st)
          else if String.eqb u "clear" then
            ([VariablesCleared], true, clear_variables st)
          else
            match Calc.calculate fs u st with
            | (inr v, st') => ([Result v], true, st')
            | (inl e, st') =>
                (if is_value_error e then [Error e] else [UnknownError (Some e)],
                 true, st')
            end
      end
  end.

(** [main] on a sequence of input lines, for [fuel] iterations; the
    output printed. *)
Fixpoint main_loop (fuel : nat) (st : Calc.calc fs) (inputs : list string)
  : list output :=
  match fuel with
  | O => []
  | S f =>
      let '(input, rest) :=
        match inputs with [] => (None, []) | l :: r => (Some l, r) end in
      let '(outs, go, st') := main_step st input in
      outs ++ (if go then main_loop f st' rest else [])
  end.

End Session.

End Main.

(* ------------------------------------------------------------------ *)
(** ** More notions used in the statements *)

(** The value of [s1 s2 ... sn v] for unary signs [si]. *)
Definition apply_signs (fs : FloatSem) (signs : list string) (v : num (flt fs))
  : num (flt fs) :=
  fold_right (fun s v => if String.eqb s "+" then v else Calc.negate fs v) v signs.

(** [a1 , a2 , ... , an] *)
Fixpoint comma_separated (args : list string) : list string :=
  match args with
  | [] => []
  | [a] => [a]
  | a :: r => a :: ","%string :: comma_separated r
  end.

(* ------------------------------------------------------------------ *)
(** ** Examples *)

Example tokenize_ex1 :
  Tokenizer.tokenize " 2 ** 3 ** 2 " = Some ["2"; "**"; "3"; "**"; "2"]%string.
Proof. reflexivity. Qed.

Example tokenize_ex2 :
  Tokenizer.tokenize "let x = 1.5*foo_1(2,3)//4" =
  Some ["letx"; "="; "1.5"; "*"; "foo_1"; "("; "2"; ","; "3"; ")"; "//"; "4"]%string.
Proof. reflexivity. Qed.

Example run_ex1 : run "2 + 3 * 4" = inr (VInt 14).
Proof. vm_eq. Qed.

Example run_ex2 : run "(2 + 3) * 4" = inr (VInt 20).
Proof. vm_eq. Qed.

Example run_ex3 : run "15 / 3" = inr (VFloat 5%Q).
Proof. vm_eq. Qed.

Example run_ex4 : run "max(1, 5, 3)" = inr (VInt 5).
Proof. vm_eq. Qed.

Example run_ex5 : run "5 / 0" = inl DivisionByZero.
Proof. vm_eq. Qed.

Example run_ex6 : run "unknown_var + 5" = inl (UnknownVariable "unknown_var").
Proof. vm_eq. Qed.

Example run_ex7 : run "2 ** 3 ** 2" = inr (VInt 512).
Proof. vm_eq. Qed.

Example run_ex8 : run "1.5 * 2" = inr (VFloat 3%Q).
Proof. vm_eq. Qed.

Example run_ex9 : run "2 + 3 )" = inl UnprocessedTokens.
Proof. vm_eq. Qed.

(* ------------------------------------------------------------------ *)
(** ** Framing: what a method call leaves unchanged *)

Module Frame.
Import Calc.

Section Keeps.

Variable fs : FloatSem.
(** a relation between the state before and after a call *)
Variable R : calc fs -> calc fs -> Prop.
Hypothesis R_refl : forall st, R st st.
Hypothesis R_trans : forall s1 s2 s3, R s1 s2 -> R s2 s3 -> R s1 s3.
(** [consume_token] only advances over an existing token. *)
Hypothesis R_advance : forall st,
  current_position fs st < length (tokens fs st) ->
  R st (mk_calc fs (variables fs st) (tokens fs st) (S (current_position fs st))).

Local Abbreviation keeps := (keeps fs R).

Lemma keeps_ret {A} (a : A) : keeps (ret fs a).
Proof. intro st. apply R_refl. Qed.

Lemma keeps_raise {A} (e : error) : keeps (raise fs (A:=A) e).
Proof. intro st. apply R_refl. Qed.

Lemma keeps_lift {A} (r : error + A) : keeps (lift fs r).
Proof. intro st. apply R_refl. Qed.

Lemma keeps_bind {A B} (m : M fs A) (k : A -> M fs B) :
  keeps m -> (forall a, keeps (k a)) -> keeps (bind fs m k).
Proof.
  intros Hm Hk st. unfold bind.
  specialize (Hm st). destruct (m st) as [[e | a] st'] eqn:E; simpl in *.
  - exact Hm.
  - eapply R_trans; [exact Hm | apply Hk].
Qed.

Lemma keeps_get : keeps (get_current_token fs).
Proof. intro st. apply R_refl. Qed.

Lemma keeps_consume (e : option string) : keeps (consume_token fs e).
Proof.
  intro st. unfold consume_token.
  destruct (nth_error _ _) eqn:En; [|apply R_refl].
  destruct (match e with Some _ => _ | None => false end); simpl;
    [apply R_refl | apply R_advance].
  apply nth_error_Some. rewrite En. discriminate.
Qed.

Lemma keeps_loop_bound : keeps (loop_bound fs).
Proof. intro st. apply R_refl. Qed.

Lemma keeps_variable_reference (x : string) :
  keeps (handle_variable_reference fs x).
Proof. intro st. unfold handle_variable_reference. destruct (_ !! _); apply R_refl. Qed.

Lemma keeps_call_pred (r : option bool) : keeps (call_pred fs r).
Proof. destruct r; intro st; apply R_refl. Qed.

(** The bound-method call in [handle_assignment] always raises, so what
    follows it never runs. *)
Lemma keeps_instance_call {B} (body : Tokenizer.pyobj -> bool) x
  (k : bool -> M fs B) :
  keeps (bind fs (call_pred fs (Tokenizer.call_via_instance body x)) k).
Proof. intro st. apply R_refl. Qed.

Lemma keeps_bind_raise {A B} (e : error) (k : A -> M fs B) :
  keeps (bind fs (raise fs e) k).
Proof. intro st. apply R_refl. Qed.

Ltac keeps_step :=
  match goal with
  | |- keeps (bind _ (call_pred _ (Tokenizer.call_via_instance _ _)) _) =>
      apply keeps_instance_call
  | |- keeps (bind _ (raise _ _) _) => apply keeps_bind_raise
  | |- keeps (bind _ _ _) => apply keeps_bind; [| intro]
  | |- keeps (ret _ _) => apply keeps_ret
  | |- keeps (raise _ _) => apply keeps_raise
  | |- keeps (lift _ _) => apply keeps_lift
  | |- keeps (get_current_token _) => apply keeps_get
  | |- keeps (consume_token _ _) => apply keeps_consume
  | |- keeps (loop_bound _) => apply keeps_loop_bound
  | |- keeps (call_pred _ _) => apply keeps_call_pred
  | |- keeps (handle_variable_reference _ _) => apply keeps_variable_reference
  | |- keeps (if ?b then _ else _) => destruct b
  | |- keeps (match ?x with _ => _ end) => destruct x
  (* the [while True] loops, unfolded by induction on their bound *)
  | |- keeps (?loop ?n ?acc) =>
      is_var n; generalize acc; induction n as [| n IHn]; intro; simpl
  end.

Lemma keeps_descent : forall fuel,
  keeps (handle_expression fs fuel) /\
  keeps (handle_assignment fs fuel) /\
  keeps (handle_additive_expression fs fuel) /\
  keeps (handle_multiplicative_expression fs fuel) /\
  keeps (handle_power_expression fs fuel) /\
  keeps (handle_unary_expression fs fuel) /\
  keeps (handle_primary_expression fs fuel) /\
  (forall name, keeps (handle_function_call fs fuel name)).
Proof.
  induction fuel as [| f IH].
  - repeat split; try (intro name); apply keeps_raise.
  - destruct IH as (He & Ha & Hadd & Hmul & Hpow & Hun & Hpr & Hcall).
    repeat split;
      lazymatch goal with |- forall name : string, _ => intro name | _ => idtac end;
      simpl.
    all: repeat first
           [ assumption | apply Hcall
           | match goal with H : forall x, keeps _ |- _ => apply H end
           | keeps_step ].
Qed.

End Keeps.
End Frame.

Lemma descent_keeps_tokens (fs : FloatSem) fuel st :
  Calc.tokens fs (snd (Calc.handle_expression fs fuel st)) = Calc.tokens fs st.
Proof.
  pose proof (proj1 (Frame.keeps_descent fs
                (fun a b => Calc.tokens fs b = Calc.tokens fs a)
                (fun _ => eq_refl)
                (fun _ _ _ H1 H2 => eq_trans H2 H1)
                (fun _ _ => eq_refl) fuel)) as H.
  apply H.
Qed.

Lemma descent_keeps_variables (fs : FloatSem) fuel st :
  Calc.variables fs (snd (Calc.handle_expression fs fuel st)) = Calc.variables fs st.
Proof.
  pose proof (proj1 (Frame.keeps_descent fs
                (fun a b => Calc.variables fs b = Calc.variables fs a)
                (fun _ => eq_refl)
                (fun _ _ _ H1 H2 => eq_trans H2 H1)
                (fun _ _ => eq_refl) fuel)) as H.
  apply H.
Qed.

(** What [calculate] does once the input is tokenized. *)
Lemma calculate_unfold (fs : FloatSem) expression st toks :
  Tokenizer.tokenize expression = Some toks ->
  Calc.calculate fs expression st =
  match Calc.handle_expression fs (Calc.recursion_budget toks)
          (Calc.mk_calc fs (Calc.variables fs st) toks 0) with
  | (inl e, st1) => (inl e, st1)
  | (inr v, st1) =>
      if negb (Nat.eqb (Calc.current_position fs st1)
                       (length (Calc.tokens fs st1)))
      then (inl UnprocessedTokens, st1) else (inr v, st1)
  end.
Proof.
  intro Ht. unfold Calc.calculate. rewrite Ht.
  unfold Tokenizer.tokenize in Ht.
  destruct (Py.strip (list_ascii_of_string expression)); [discriminate|].
  reflexivity.
Qed.

(* ------------------------------------------------------------------ *)
(** ** Assignment *)

(** C1: [let] is never evaluated.  Whenever the current token is [let],
    the evaluator consumes it and then calls
    [self._tokenizer.is_identifier(variable_name)] through the instance:
    the bound method receives two positional arguments and Python raises
    [TypeError], before the name, the [=] or the right-hand side are
    looked at and before anything is stored. *)
Theorem let_raises_type_error (fs : FloatSem) (st : Calc.calc fs) (n : nat) :
  nth_error (Calc.tokens fs st) (Calc.current_position fs st) = Some "let"%string ->
  Calc.handle_expression fs (S (S n)) st =
  (inl WrongArgumentCount,
   Calc.mk_calc fs (Calc.variables fs st) (Calc.tokens fs st)
     (S (Calc.current_position fs st))).
Proof.
  intro Hlet. simpl.
  unfold Calc.bind at 1, Calc.get_current_token. rewrite Hlet. simpl.
  unfold Calc.bind at 1, Calc.consume_token. rewrite Hlet. simpl.
  reflexivity.
Qed.

Lemma let_raises_type_error_witness :
  nth_error ["let"; "x"; "="; "5"]%string 0 = Some "let"%string /\
  Calc.handle_expression ExactFloat.sem 2
    (Calc.mk_calc ExactFloat.sem ∅ ["let"; "x"; "="; "5"]%string 0) =
  (inl WrongArgumentCount,
   Calc.mk_calc ExactFloat.sem ∅ ["let"; "x"; "="; "5"]%string 1).
Proof.
  split; [reflexivity|].
  apply (let_raises_type_error ExactFloat.sem
           (Calc.mk_calc ExactFloat.sem ∅ ["let"; "x"; "="; "5"]%string 0) 0).
  reflexivity.
Defined.

(** With the spec's token pattern the input [let x = 5] does not even
    reach that call: spaces are removed before scanning, and [letx] is one
    identifier. *)
Example let_x_5_from_text : run "let x = 5" = inl (UnknownVariable "letx").
Proof. vm_eq. Qed.

(** C7: no call of [calculate] ever changes the variable environment,
    whatever the input: the only store is the one after the failing
    bound-method call of [handle_assignment]. *)
Theorem calculate_never_assigns (fs : FloatSem) (expression : string)
  (st : Calc.calc fs) :
  Calc.variables fs (snd (Calc.calculate fs expression st)) = Calc.variables fs st.
Proof.
  destruct (Tokenizer.tokenize expression) as [toks|] eqn:Ht.
  - rewrite (calculate_unfold fs expression st toks Ht).
    pose proof (descent_keeps_variables fs (Calc.recursion_budget toks)
                  (Calc.mk_calc fs (Calc.variables fs st) toks 0)) as H.
    destruct (Calc.handle_expression _ _ _) as [[e | v] st1]; simpl in *;
      [exact H|].
    destruct (negb _); exact H.
  - unfold Calc.calculate. rewrite Ht.
    destruct (Py.strip _); reflexivity.
Qed.

(* ------------------------------------------------------------------ *)
(** ** Integer and float results of the operators *)

(** C2, as the code has it: on two [int]s, [+], [-], [*], [//], [%] and
    unary [-] give an [int] ([//] and [%] fail on a zero divisor), and
    [**] gives an [int] for a non-negative exponent; for a negative
    exponent it goes through [float.__pow__] and gives a [float] or
    fails, never an [int]. *)
Theorem int_operands_int_result (fs : FloatSem) (x y : Z) :
  Calc.additive_step fs "+" (VInt x) (VInt y) = inr (VInt (x + y)) /\
  Calc.additive_step fs "-" (VInt x) (VInt y) = inr (VInt (x - y)) /\
  Calc.multiplicative_step fs "*" (VInt x) (VInt y) = inr (VInt (x * y)) /\
  Calc.multiplicative_step fs "//" (VInt x) (VInt y) =
    (if Z.eqb y 0 then inl IntegerDivisionByZero else inr (VInt (x / y))) /\
  Calc.multiplicative_step fs "%" (VInt x) (VInt y) =
    (if Z.eqb y 0 then inl ModuloByZero else inr (VInt (x mod y))) /\
  Calc.negate fs (VInt x) = VInt (- x) /\
  Calc.power fs (VInt x) (VInt y) =
    (if (0 <=? y)%Z then inr (VInt (x ^ y))
     else Calc.float_power fs (VInt x) (VInt y)) /\
  match Calc.float_power fs (VInt x) (VInt y) with
  | inr v => is_float v = true
  | inl _ => True
  end.
Proof.
  unfold Calc.additive_step, Calc.multiplicative_step, Calc.is_zero.
  simpl. repeat split; try (destruct (Z.eqb y 0); reflexivity).
  unfold Calc.float_power. cbn [Calc.to_float].
  destruct (flt_of_int fs y) as [w|] eqn:Hw;
    destruct (flt_of_int fs x) as [u|]; simpl; trivial.
  rewrite (flt_of_int_integral fs y w Hw), andb_false_r.
  destruct (flt_pow fs _ _); reflexivity.
Qed.

(** C2 fails for [**]: [2 ** -1] is the float [0.5]. *)
Lemma int_power_negative_exponent_float :
  Calc.power ExactFloat.sem (VInt 2) (VInt (-1)) = inr (VFloat (1 # 2)) /\
  run "2 ** -1" = inr (VFloat (1 # 2)).
Proof. split; vm_eq. Qed.

(** C3 fails when the divisor is zero: the zero check comes first, so
    [2.5 // 0] and [2.5 % 0] report division by zero, not the type. *)
Lemma float_operand_zero_divisor :
  run "2.5 // 0" = inl IntegerDivisionByZero /\
  run "2.5 % 0" = inl ModuloByZero.
Proof. split; vm_eq. Qed.

(** C3, as the code has it: with a [float] operand, [//] and [%] fail;
    with the zero-divisor error of the operator when the divisor equals
    zero, with the integers-only type error otherwise. *)
Theorem float_operand_integer_ops_fail (fs : FloatSem) (a b : num (flt fs)) :
  is_float a || is_float b = true ->
  Calc.multiplicative_step fs "//" a b =
    inl (if Calc.is_zero fs b then IntegerDivisionByZero else IntegersOnly "//") /\
  Calc.multiplicative_step fs "%" a b =
    inl (if Calc.is_zero fs b then ModuloByZero else IntegersOnly "%").
Proof.
  intro Hf. unfold Calc.multiplicative_step. simpl.
  destruct (Calc.is_zero fs b); split; try reflexivity;
    destruct a, b; simpl in Hf; try discriminate; reflexivity.
Qed.

Lemma float_operand_integer_ops_fail_witness :
  is_float (F := Q) (VFloat (5 # 2)) || is_float (F := Q) (VInt 2) = true /\
  Calc.multiplicative_step ExactFloat.sem "//" (VFloat (5 # 2)) (VInt 2) =
    inl (IntegersOnly "//") /\
  Calc.multiplicative_step ExactFloat.sem "%" (VFloat (5 # 2)) (VInt 2) =
    inl (IntegersOnly "%").
Proof.
  split; [reflexivity|].
  exact (float_operand_integer_ops_fail ExactFloat.sem (VFloat (5 # 2)) (VInt 2)
           eq_refl).
Defined.




(* ------------------------------------------------------------------ *)
(** ** Stepping the descent on number literals *)

Module Steps.
Import Calc.

Lemma digit_token_not_keyword (t : string) :
  Tokenizer.is_digit_token t = true ->
  String.eqb t "let" = false /\ String.eqb t "(" = false /\
  String.eqb t "+" = false /\ String.eqb t "-" = false /\
  String.eqb t "*" = false /\ String.eqb t "/" = false /\
  String.eqb t "//" = false /\ String.eqb t "%" = false /\
  String.eqb t "**" = false.
Proof.
  intro H.
  repeat split;
    match goal with
    | |- String.eqb t ?k = false =>
        destruct (String.eqb t k) eqn:E; [|reflexivity];
        apply String.eqb_eq in E; subst t; discriminate H
    end.
Qed.

Section WithSem.
Variable fs : FloatSem.

Lemma bind_inr {A B} (m : M fs A) (k : A -> M fs B) st a st' :
  m st = (inr a, st') -> bind fs m k st = k a st'.
Proof. intro H. unfold bind. rewrite H. reflexivity. Qed.

Lemma bind_inl {A B} (m : M fs A) (k : A -> M fs B) st e st' :
  m st = (inl e, st') -> bind fs m k st = (inl e, st').
Proof. intro H. unfold bind. rewrite H. reflexivity. Qed.

Lemma bind_get {B} (k : option string -> M fs B) st :
  bind fs (get_current_token fs) k st =
  k (nth_error (tokens fs st) (current_position fs st)) st.
Proof. reflexivity. Qed.

Lemma bind_consume {B} (e : option string) (k : string -> M fs B) vars toks p t :
  nth_error toks p = Some t ->
  e = None \/ e = Some t ->
  bind fs (consume_token fs e) k (mk_calc fs vars toks p) =
  k t (mk_calc fs vars toks (S p)).
Proof.
  intros Hn He. unfold bind, consume_token. simpl. rewrite Hn.
  destruct He as [-> | ->]; [reflexivity|].
  rewrite String.eqb_refl. rewrite andb_false_r. reflexivity.
Qed.

Ltac facts_of Hd :=
  let F := fresh "F" in
  pose proof (digit_token_not_keyword _ Hd) as F;
  destruct F as (?&?&?&?&?&?&?&?&?).

Ltac crunch :=
  repeat (simpl; match goal with
                 | H : _ = _ |- _ => rewrite H
                 end).

Lemma primary_number f vars toks p t v :
  nth_error toks p = Some t ->
  Tokenizer.is_digit_token t = true ->
  parse_number fs t = inr v ->
  handle_primary_expression fs (S f) (mk_calc fs vars toks p) =
  (inr v, mk_calc fs vars toks (S p)).
Proof.
  intros Hn Hd Hp. facts_of Hd.
  simpl. unfold bind at 1, get_current_token. simpl. rewrite Hn.
  unfold Tokenizer.call_via_class, Tokenizer.call1, call_pred. simpl.
  rewrite H0, Hd. unfold bind, ret, consume_token, lift. simpl.
  rewrite Hn. simpl. rewrite Hp. reflexivity.
Qed.

Lemma unary_number f vars toks p t v :
  nth_error toks p = Some t ->
  Tokenizer.is_digit_token t = true ->
  parse_number fs t = inr v ->
  handle_unary_expression fs (S (S f)) (mk_calc fs vars toks p) =
  (inr v, mk_calc fs vars toks (S p)).
Proof.
  intros Hn Hd Hp. facts_of Hd.
  simpl. unfold bind at 1, get_current_token. simpl. rewrite Hn.
  unfold is_additive_op. rewrite H1, H2. simpl.
  exact (primary_number f vars toks p t v Hn Hd Hp).
Qed.

(** [t] is the last token: [t] alone. *)
Lemma power_last f vars toks p t v :
  nth_error toks p = Some t ->
  nth_error toks (S p) = None ->
  Tokenizer.is_digit_token t = true ->
  parse_number fs t = inr v ->
  handle_power_expression fs (S (S (S f))) (mk_calc fs vars toks p) =
  (inr v, mk_calc fs vars toks (S p)).
Proof.
  intros Hn Hn' Hd Hp.
  cbn [handle_power_expression].
  rewrite (bind_inr _ _ _ v _ (unary_number f vars toks p t v Hn Hd Hp)).
  rewrite bind_get. cbn [tokens current_position]. rewrite Hn'. reflexivity.
Qed.

(** [t ** rest]: the right operand is a whole power expression. *)
Lemma power_chain f vars toks p t v :
  nth_error toks p = Some t ->
  nth_error toks (S p) = Some "**"%string ->
  Tokenizer.is_digit_token t = true ->
  parse_number fs t = inr v ->
  handle_power_expression fs (S (S (S f))) (mk_calc fs vars toks p) =
  match handle_power_expression fs (S (S f)) (mk_calc fs vars toks (S (S p))) with
  | (inl e, st') => (inl e, st')
  | (inr r, st') => (power fs v r, st')
  end.
Proof.
  intros Hn Hn' Hd Hp.
  cbn [handle_power_expression].
  rewrite (bind_inr _ _ _ v _ (unary_number f vars toks p t v Hn Hd Hp)).
  rewrite bind_get. cbn [tokens current_position]. rewrite Hn'. simpl.
  erewrite bind_consume; [| exact Hn' | right; reflexivity].
  unfold bind.
  destruct (handle_power_expression fs (S (S f)) (mk_calc fs vars toks (S (S p))))
    as [[e | r] st'];
    reflexivity.
Qed.

(** A level whose operand ends the input returns it unchanged. *)
Lemma multiplicative_at_end f st v st' :
  handle_power_expression fs f st = (inr v, st') ->
  nth_error (tokens fs st') (current_position fs st') = None ->
  handle_multiplicative_expression fs (S f) st = (inr v, st').
Proof.
  intros Hp Hn. cbn [handle_multiplicative_expression].
  rewrite (bind_inr _ _ _ _ _ Hp).
  unfold bind at 1, loop_bound. simpl.
  rewrite bind_get. rewrite Hn. reflexivity.
Qed.

Lemma additive_at_end f st v st' :
  handle_multiplicative_expression fs f st = (inr v, st') ->
  nth_error (tokens fs st') (current_position fs st') = None ->
  handle_additive_expression fs (S f) st = (inr v, st').
Proof.
  intros Hp Hn. cbn [handle_additive_expression].
  rewrite (bind_inr _ _ _ _ _ Hp).
  unfold bind at 1, loop_bound. simpl.
  rewrite bind_get. rewrite Hn. reflexivity.
Qed.

Lemma multiplicative_error f st e st' :
  handle_power_expression fs f st = (inl e, st') ->
  handle_multiplicative_expression fs (S f) st = (inl e, st').
Proof.
  intro Hp. cbn [handle_multiplicative_expression]. exact (bind_inl _ _ _ _ _ Hp).
Qed.

Lemma additive_error f st e st' :
  handle_multiplicative_expression fs f st = (inl e, st') ->
  handle_additive_expression fs (S f) st = (inl e, st').
Proof.
  intro Hp. cbn [handle_additive_expression]. exact (bind_inl _ _ _ _ _ Hp).
Qed.

Lemma expression_not_let f st t :
  nth_error (tokens fs st) (current_position fs st) = Some t ->
  String.eqb t "let" = false ->
  handle_expression fs (S (S f)) st = handle_additive_expression fs f st.
Proof.
  intros Hn Hl. cbn [handle_expression handle_assignment].
  unfold bind at 1, get_current_token. rewrite Hn. simpl. rewrite Hl.
  reflexivity.
Qed.

End WithSem.
End Steps.

(* ------------------------------------------------------------------ *)
(** ** Power associates to the right *)

(** C4: on the token sequence [a ** b ** c] of three number literals,
    [calculate] computes [b ** c] first and then [a ** (b ** c)]. *)
Theorem power_right_associative (fs : FloatSem) (expression : string)
  (st : Calc.calc fs) (a b c : string) (va vb vc : num (flt fs)) :
  Tokenizer.tokenize expression = Some [a; "**"; b; "**"; c]%string ->
  Tokenizer.is_digit_token a = true ->
  Tokenizer.is_digit_token b = true ->
  Tokenizer.is_digit_token c = true ->
  Calc.parse_number fs a = inr va ->
  Calc.parse_number fs b = inr vb ->
  Calc.parse_number fs c = inr vc ->
  fst (Calc.calculate fs expression st) =
  match Calc.power fs vb vc with
  | inr r => Calc.power fs va r
  | inl e => inl e
  end.
Proof.
  intros Ht Ha Hb Hc Hpa Hpb Hpc.
  rewrite (calculate_unfold fs expression st _ Ht).
  set (toks := [a; "**"; b; "**"; c]%string).
  set (vars := Calc.variables fs st).
  replace (Calc.recursion_budget toks) with (S (S 46)) by reflexivity.
  rewrite (Steps.expression_not_let fs 46 (Calc.mk_calc fs vars toks 0) a eq_refl
             (proj1 (Steps.digit_token_not_keyword a Ha))).
  pose proof (Steps.power_last fs 39 vars toks 4 c vc eq_refl eq_refl Hc Hpc) as P3.
  pose proof (Steps.power_chain fs 40 vars toks 2 b vb eq_refl eq_refl Hb Hpb) as P2.
  rewrite P3 in P2.
  pose proof (Steps.power_chain fs 41 vars toks 0 a va eq_refl eq_refl Ha Hpa) as P1.
  rewrite P2 in P1.
  destruct (Calc.power fs vb vc) as [e | r].
  - rewrite (Steps.additive_error fs 45 _ e _
               (Steps.multiplicative_error fs 44 _ e _ P1)).
    reflexivity.
  - destruct (Calc.power fs va r) as [e | v] eqn:E.
    + rewrite (Steps.additive_error fs 45 _ e _
                 (Steps.multiplicative_error fs 44 _ e _ P1)).
      reflexivity.
    + rewrite (Steps.additive_at_end fs 45 _ v _
                 (Steps.multiplicative_at_end fs 44 _ v _ P1 eq_refl) eq_refl).
      reflexivity.
Qed.

Lemma power_right_associative_witness :
  fst (Calc.calculate ExactFloat.sem "2 ** 3 ** 2" (fresh ExactFloat.sem)) =
  match Calc.power ExactFloat.sem (VInt 3) (VInt 2) with
  | inr r => Calc.power ExactFloat.sem (VInt 2) r
  | inl e => inl e
  end /\
  run "2 ** 3 ** 2" = inr (VInt 512).
Proof.
  split; [| vm_eq].
  apply (power_right_associative ExactFloat.sem "2 ** 3 ** 2" (fresh ExactFloat.sem)
           "2" "3" "2"); vm_eq.
Defined.

(* ------------------------------------------------------------------ *)
(** ** Trailing tokens *)

(** C6: when the descent returns a value but stops before the last
    token, [calculate] fails with the unprocessed-tokens error instead of
    returning that value. *)
Theorem trailing_tokens_rejected (fs : FloatSem) (expression : string)
  (st : Calc.calc fs) (toks : list string) (v : num (flt fs))
  (st1 : Calc.calc fs) :
  Tokenizer.tokenize expression = Some toks ->
  Calc.handle_expression fs (Calc.recursion_budget toks)
    (Calc.mk_calc fs (Calc.variables fs st) toks 0) = (inr v, st1) ->
  Calc.current_position fs st1 < length toks ->
  fst (Calc.calculate fs expression st) = inl UnprocessedTokens.
Proof.
  intros Ht Hd Hlt.
  rewrite (calculate_unfold fs expression st toks Ht), Hd.
  pose proof (descent_keeps_tokens fs (Calc.recursion_budget toks)
                (Calc.mk_calc fs (Calc.variables fs st) toks 0)) as Hk.
  rewrite Hd in Hk. simpl in Hk. rewrite Hk.
  destruct (Nat.eqb_spec (Calc.current_position fs st1) (length toks)); [lia|].
  reflexivity.
Qed.

Lemma trailing_tokens_rejected_witness :
  Tokenizer.tokenize "2 + 3 )" = Some ["2"; "+"; "3"; ")"]%string /\
  Calc.handle_expression ExactFloat.sem
    (Calc.recursion_budget ["2"; "+"; "3"; ")"]%string)
    (Calc.mk_calc ExactFloat.sem ∅ ["2"; "+"; "3"; ")"]%string 0) =
  (inr (VInt 5), Calc.mk_calc ExactFloat.sem ∅ ["2"; "+"; "3"; ")"]%string 3) /\
  fst (Calc.calculate ExactFloat.sem "2 + 3 )" (fresh ExactFloat.sem)) =
  inl UnprocessedTokens.
Proof.
  split; [reflexivity|]. split; [vm_eq|].
  apply (trailing_tokens_rejected ExactFloat.sem "2 + 3 )" (fresh ExactFloat.sem)
           ["2"; "+"; "3"; ")"]%string (VInt 5)
           (Calc.mk_calc ExactFloat.sem ∅ ["2"; "+"; "3"; ")"]%string 3)).
  - reflexivity.
  - vm_eq.
  - simpl. lia.
Defined.

(* ------------------------------------------------------------------ *)
(** ** The number predicate *)

Lemma span_app (p : ascii -> bool) (s a b : list ascii) :
  Tokenizer.span p s = (a, b) -> s = a ++ b /\ forallb p a = true.
Proof.
  revert a b. induction s as [| c r IH]; intros a b H; simpl in H.
  - inversion H. auto.
  - destruct (p c) eqn:Pc.
    + destruct (Tokenizer.span p r) as [a' b'] eqn:E. injection H as <- <-.
      destruct (IH a' b' eq_refl) as [-> Hf]. simpl. rewrite Pc, Hf. auto.
    + inversion H. auto.
Qed.

Lemma ascii_digits_no_point (s : list ascii) :
  forallb Tokenizer.is_ascii_digit s = true ->
  Py.remove_char "." s = s /\ forallb Py.is_digit_char s = true.
Proof.
  induction s as [| c r IH]; simpl; [auto|].
  intro H. apply andb_prop in H as [Hc Hr]. destruct (IH Hr) as [E F].
  assert (Hd : Ascii.eqb c "." = false /\ Py.is_digit_char c = true).
  { unfold Tokenizer.is_ascii_digit, Py.is_digit_char in *.
    destruct (Ascii.eqb_spec c "."); [subst; discriminate|].
    split; [reflexivity|]. rewrite Hc. reflexivity. }
  destruct Hd as [Hdot Hdig].
  unfold Py.remove_char in *. cbn [List.filter forallb]. rewrite Hdot. cbn [negb].
  rewrite E, Hdig, F. auto.
Qed.

(** C8 fails: the predicate only removes every point before testing for
    digits, so [1.2.3], [.5] and [5.] are accepted. *)
Lemma digit_token_several_points :
  Tokenizer.is_digit_token "1.2.3" = true /\ spec_number_shape "1.2.3" = false /\
  Tokenizer.is_digit_token ".5" = true /\ spec_number_shape ".5" = false /\
  Tokenizer.is_digit_token "5." = true /\ spec_number_shape "5." = false.
Proof. vm_compute. repeat split. Qed.

(** C8, as the code has it: every string of the spec's NUMBER shape is
    accepted, and the predicate holds exactly when the string with every
    point removed is non-empty and made of [str.isdigit] characters. *)
Theorem digit_token_shape (token : string) :
  implb (spec_number_shape token) (Tokenizer.is_digit_token token) = true /\
  (Tokenizer.is_digit_token token = true <->
   Py.remove_char "." (list_ascii_of_string token) <> [] /\
   Forall (fun c => Py.is_digit_char c = true)
     (Py.remove_char "." (list_ascii_of_string token))).
Proof.
  split.
  - unfold spec_number_shape.
    destruct (Tokenizer.span Tokenizer.is_ascii_digit (list_ascii_of_string token))
      as [ds r] eqn:E.
    apply span_app in E as [Es Fd].
    destruct ds as [| d ds']; [reflexivity|]. simpl andb.
    unfold Tokenizer.is_digit_token. rewrite Es.
    destruct (ascii_digits_no_point _ Fd) as [Rd Gd].
    destruct r as [| c fr].
    + rewrite app_nil_r, Rd. simpl. exact Gd.
    + destruct (Ascii.eqb_spec c "."); [subst c|].
      * destruct fr as [| f fr']; [reflexivity|].
        simpl (match _ :: _ with [] => false | _ => true end).
        destruct (forallb Tokenizer.is_ascii_digit (f :: fr')) eqn:Ff;
          [|reflexivity].
        destruct (ascii_digits_no_point _ Ff) as [Rf Gf].
        unfold Py.remove_char in *.
        assert (Hp : forall l, List.filter (fun d => negb (Ascii.eqb d ".")) ("."%char :: l)
                               = List.filter (fun d => negb (Ascii.eqb d ".")) l)
          by reflexivity.
        rewrite List.filter_app, Rd, Hp, Rf.
        change (Py.isdigit ((d :: ds') ++ f :: fr'))
          with (forallb Py.is_digit_char ((d :: ds') ++ f :: fr')).
        rewrite forallb_app, Gd, Gf. reflexivity.
      * destruct c as [[] [] [] [] [] [] [] []]; try reflexivity.
        exfalso. apply n. reflexivity.
  - unfold Tokenizer.is_digit_token, Py.isdigit.
    destruct (Py.remove_char "." (list_ascii_of_string token)) as [| c r].
    + split; [discriminate | intros [H _]; contradiction].
    + rewrite forallb_forall, <- List.Forall_forall. split.
      * intro H. split; [discriminate | exact H].
      * intros [_ H]. exact H.
Qed.

(* ------------------------------------------------------------------ *)
(** ** The tokenizer keeps the token characters, in order *)

Module TokenizerFacts.
Import Tokenizer.

Lemma alphabet_not_space (c : ascii) :
  in_token_alphabet c = true -> Py.is_space c = false.
Proof.
  intro H. destruct c as [[] [] [] [] [] [] [] []];
    vm_compute in H |- *; congruence.
Qed.

Lemma token_char_not_space (c : ascii) : token_char c -> Py.is_space c = false.
Proof. intros [H | ->]; [apply alphabet_not_space, H | reflexivity]. Qed.

Lemma digit_in_alphabet (c : ascii) :
  is_ascii_digit c = true -> in_token_alphabet c = true.
Proof.
  intro H. unfold in_token_alphabet, ident_char. rewrite H.
  rewrite orb_true_r. reflexivity.
Qed.

Lemma forallb_Forall_token (p : ascii -> bool) (l : list ascii) :
  (forall c, p c = true -> in_token_alphabet c = true) ->
  forallb p l = true -> Forall token_char l.
Proof.
  intros Hp Hl. induction l as [| c r IH]; constructor;
    simpl in Hl; apply andb_prop in Hl as [Hc Hr].
  - left. apply Hp, Hc.
  - apply IH, Hr.
Qed.

Lemma span_head (p : ascii -> bool) (c : ascii) (r a b : list ascii) :
  p c = true -> span p (c :: r) = (a, b) -> a <> [].
Proof.
  intros Hc H. simpl in H. rewrite Hc in H.
  destruct (span p r). injection H as <- _. discriminate.
Qed.

Lemma match_number_spec (c : ascii) (r t rest : list ascii) :
  is_ascii_digit c = true ->
  match_number (c :: r) = (t, rest) ->
  c :: r = t ++ rest /\ t <> [] /\ Forall token_char t.
Proof.
  intros Hc H. unfold match_number in H.
  destruct (span is_ascii_digit (c :: r)) as [ds r1] eqn:E.
  pose proof (span_head _ _ _ _ _ Hc E) as Hne.
  apply span_app in E as [Es Fd].
  pose proof (forallb_Forall_token _ _ digit_in_alphabet Fd) as Td.
  destruct r1 as [| p [| d r2']].
  - injection H as <- <-. auto.
  - injection H as <- <-. auto.
  - destruct (Ascii.eqb p "." && is_ascii_digit d) eqn:Pd.
    + apply andb_prop in Pd as [Pp _]. apply Ascii.eqb_eq in Pp. subst p.
      destruct (span is_ascii_digit (d :: r2')) as [fs r3] eqn:E2.
      apply span_app in E2 as [Es2 Ff].
      injection H as <- <-.
      split; [rewrite Es, Es2, <- app_assoc; reflexivity|].
      split; [destruct ds; [contradiction | discriminate]|].
      apply Forall_app; split; [exact Td|].
      constructor; [right; reflexivity|].
      exact (forallb_Forall_token _ _ digit_in_alphabet Ff).
    + injection H as <- <-. auto.
Qed.

Lemma match_single_spec (c : ascii) (r t rest : list ascii) :
  match_single c r = Some (t, rest) ->
  c :: r = t ++ rest /\ t <> [] /\ Forall token_char t.
Proof.
  unfold match_single. intro H.
  destruct (is_ascii_digit c) eqn:Hd.
  - apply (match_number_spec c r t rest Hd). congruence.
  - destruct (ident_start c) eqn:Hi.
    + assert (H' : span ident_char (c :: r) = (t, rest)) by congruence.
      clear H. rename H' into H.
      assert (Hc : ident_char c = true) by (unfold ident_char; rewrite Hi; reflexivity).
      pose proof (span_head _ _ _ _ _ Hc H) as Hne.
      apply span_app in H as [Es F]. split; [exact Es|]. split; [exact Hne|].
      apply (forallb_Forall_token ident_char); [|exact F].
      intros x Hx. unfold in_token_alphabet. rewrite Hx. reflexivity.
    + destruct (is_op_char c) eqn:Ho; [|discriminate].
      injection H as <- <-. split; [reflexivity|]. split; [discriminate|].
      constructor; [|constructor]. left.
      unfold in_token_alphabet. rewrite Ho, orb_true_r. reflexivity.
Qed.

Lemma match_single_none (c : ascii) (r : list ascii) :
  match_single c r = None -> in_token_alphabet c = false.
Proof.
  unfold match_single, in_token_alphabet, ident_char.
  destruct (is_ascii_digit c), (ident_start c), (is_op_char c);
    simpl; congruence.
Qed.

Lemma match_token_spec (s t rest : list ascii) :
  match_token s = Some (t, rest) ->
  s = t ++ rest /\ t <> [] /\ Forall token_char t.
Proof.
  destruct s as [| c r]; [discriminate|]. simpl.
  destruct r as [| d r'].
  - apply match_single_spec.
  - destruct ((Ascii.eqb c "*" && Ascii.eqb d "*") || (Ascii.eqb c "/" && Ascii.eqb d "/"))
      eqn:E.
    + intro H. injection H as <- <-. split; [reflexivity|]. split; [discriminate|].
      apply orb_prop in E as [E | E]; apply andb_prop in E as [E1 E2];
        apply Ascii.eqb_eq in E1, E2; subst c d;
        repeat constructor; left; reflexivity.
    + apply match_single_spec.
Qed.

Lemma match_token_none (c : ascii) (r : list ascii) :
  match_token (c :: r) = None -> in_token_alphabet c = false.
Proof.
  simpl. destruct r as [| d r'].
  - apply match_single_none.
  - destruct (_ || _); [discriminate | apply match_single_none].
Qed.

(** Dropping whitespace, the filter [without_whitespace] applies. *)
Local Abbreviation nsp := (List.filter (fun c => negb (Py.is_space c))).

Lemma nsp_tokens (t : list ascii) : Forall token_char t -> nsp t = t.
Proof.
  induction 1 as [| c t Hc _ IH]; [reflexivity|].
  simpl. rewrite (token_char_not_space c Hc). simpl. rewrite IH. reflexivity.
Qed.

Lemma nsp_rev (l : list ascii) : nsp (rev l) = rev (nsp l).
Proof.
  induction l as [| c r IH]; [reflexivity|].
  simpl. rewrite List.filter_app, IH. simpl.
  destruct (Py.is_space c); simpl; [rewrite app_nil_r|]; reflexivity.
Qed.

Lemma nsp_lstrip (l : list ascii) : nsp (Py.lstrip l) = nsp l.
Proof.
  induction l as [| c r IH]; [reflexivity|].
  simpl. destruct (Py.is_space c) eqn:E; [exact IH|]. simpl. rewrite E. reflexivity.
Qed.

Lemma nsp_strip (l : list ascii) : nsp (Py.strip l) = nsp l.
Proof.
  unfold Py.strip. rewrite nsp_rev, nsp_lstrip, nsp_rev, rev_involutive, nsp_lstrip.
  reflexivity.
Qed.

Lemma nsp_remove_space (l : list ascii) : nsp (Py.remove_char " " l) = nsp l.
Proof.
  induction l as [| c r IH]; [reflexivity|].
  unfold Py.remove_char in *. simpl.
  destruct (Ascii.eqb c " ") eqn:E; simpl.
  - apply Ascii.eqb_eq in E. subst c. exact IH.
  - destruct (Py.is_space c); simpl; rewrite ?IH; reflexivity.
Qed.

Lemma forallb_rev (p : ascii -> bool) (l : list ascii) :
  forallb p (rev l) = forallb p l.
Proof.
  induction l as [| c r IH]; [reflexivity|].
  simpl. rewrite forallb_app, IH. simpl. rewrite andb_true_r, andb_comm. reflexivity.
Qed.

Lemma forallb_lstrip (p : ascii -> bool) (l : list ascii) :
  forallb p l = true -> forallb p (Py.lstrip l) = true.
Proof.
  induction l as [| c r IH]; [reflexivity|].
  simpl. intro H. destruct (Py.is_space c); [|exact H].
  apply andb_prop in H as [_ H]. apply IH, H.
Qed.

Lemma forallb_filter (p q : ascii -> bool) (l : list ascii) :
  forallb p l = true -> forallb p (List.filter q l) = true.
Proof.
  induction l as [| c r IH]; [reflexivity|].
  simpl. intro H. apply andb_prop in H as [Hc Hr].
  destruct (q c); simpl; rewrite ?Hc, IH; auto.
Qed.

Lemma forallb_strip_remove (p : ascii -> bool) (l : list ascii) :
  forallb p l = true -> forallb p (Py.remove_char " " (Py.strip l)) = true.
Proof.
  intro H. apply forallb_filter. unfold Py.strip.
  rewrite forallb_rev. apply forallb_lstrip. rewrite forallb_rev.
  apply forallb_lstrip, H.
Qed.

Lemma findall_token_chars (fuel : nat) (s : list ascii) :
  Forall (Forall token_char) (findall fuel s).
Proof.
  revert s. induction fuel as [| f IH]; intro s; [constructor|].
  destruct s as [| c r]; [constructor|].
  cbn [findall]. destruct (match_token (c :: r)) as [[t rest]|] eqn:E; [|apply IH].
  apply match_token_spec in E as (_ & _ & Ht). constructor; [exact Ht | apply IH].
Qed.

Lemma findall_sublist (fuel : nat) (s : list ascii) :
  sublist (concat (findall fuel s)) (nsp s).
Proof.
  revert s. induction fuel as [| f IH]; intro s; [apply sublist_nil_l|].
  destruct s as [| c r]; [apply sublist_nil_l|].
  cbn [findall]. destruct (match_token (c :: r)) as [[t rest]|] eqn:E.
  - apply match_token_spec in E as (Es & _ & Ht). rewrite Es, List.filter_app.
    rewrite (nsp_tokens t Ht). simpl. apply sublist_app; [reflexivity | apply IH].
  - etransitivity; [apply IH|]. simpl.
    destruct (Py.is_space c); simpl; [reflexivity | apply sublist_cons_r; left; reflexivity].
Qed.

Lemma findall_exact (fuel : nat) (s : list ascii) :
  length s <= fuel ->
  forallb (fun c => Py.is_space c || in_token_alphabet c) s = true ->
  concat (findall fuel s) = nsp s.
Proof.
  revert s. induction fuel as [| f IH]; intros s Hl Hs.
  { destruct s; [reflexivity | simpl in Hl; lia]. }
  destruct s as [| c r]; [reflexivity|].
  cbn [findall]. destruct (match_token (c :: r)) as [[t rest]|] eqn:E.
  - apply match_token_spec in E as (Es & Hne & Ht). rewrite Es in Hl, Hs |- *.
    rewrite forallb_app in Hs. apply andb_prop in Hs as [_ Hs].
    rewrite List.filter_app, (nsp_tokens t Ht). simpl. f_equal.
    apply IH; [|exact Hs]. rewrite length_app in Hl.
    destruct t; [contradiction | simpl in Hl; lia].
  - apply match_token_none in E. simpl in Hs |- *. rewrite E, orb_false_r in Hs.
    apply andb_prop in Hs as [Hc Hs]. rewrite Hc. simpl.
    apply IH; [simpl in Hl; lia | exact Hs].
Qed.

Lemma reassemble_map (l : list (list ascii)) :
  reassemble (map string_of_list_ascii l) = concat l.
Proof.
  unfold reassemble. rewrite map_map.
  erewrite map_ext; [rewrite map_id; reflexivity|]. intro t. apply list_ascii_of_string_of_list_ascii.
Qed.

End TokenizerFacts.

(* ------------------------------------------------------------------ *)
(** ** Reassembling the tokens *)

(** Claim C9 (counterexample): reassembling the tokens does not give the
    input back without its whitespace.  [@] is dropped from ["2@3"], and
    the trailing point of ["1."] is dropped: a point only survives inside
    a number [d+.d+]. *)
Lemma tokenize_drops_characters :
  Tokenizer.tokenize "2@3" = Some ["2"; "3"]%string
  /\ reassemble ["2"; "3"]%string <> without_whitespace "2@3"
  /\ Tokenizer.tokenize "1." = Some ["1"]%string
  /\ reassemble ["1"]%string <> without_whitespace "1.".
Proof. repeat split; try reflexivity; vm_compute; discriminate. Qed.

(** Claim C9 (amended): for every input that [tokenize] accepts, the
    concatenated token text is a subsequence of the input with its
    whitespace removed (characters are dropped, never altered, added or
    reordered), and it is that whole string when every character of the
    input is whitespace or a letter, digit, [_] or operator character. *)
Theorem reassemble_tokens (s : string) (toks : list string) :
  Tokenizer.tokenize s = Some toks ->
  sublist (reassemble toks) (without_whitespace s)
  /\ (forallb (fun c => Py.is_space c || in_token_alphabet c) (list_ascii_of_string s) = true ->
      reassemble toks = without_whitespace s).
Proof.
  unfold Tokenizer.tokenize.
  destruct (Py.strip (list_ascii_of_string s)) as [| c l] eqn:Es; [discriminate|].
  intro H. injection H as <-.
  rewrite TokenizerFacts.reassemble_map. unfold without_whitespace.
  rewrite <- (TokenizerFacts.nsp_strip (list_ascii_of_string s)), Es,
    <- (TokenizerFacts.nsp_remove_space (c :: l)).
  split; [apply TokenizerFacts.findall_sublist|].
  intro Hf. apply TokenizerFacts.findall_exact; [apply Nat.le_refl|].
  pose proof (TokenizerFacts.forallb_strip_remove _ _ Hf) as Hp.
  rewrite Es in Hp. exact Hp.
Qed.

Lemma reassemble_tokens_witness :
  Tokenizer.tokenize "2 * (x_1 + 10)" = Some ["2"; "*"; "("; "x_1"; "+"; "10"; ")"]%string
  /\ reassemble ["2"; "*"; "("; "x_1"; "+"; "10"; ")"]%string
     = without_whitespace "2 * (x_1 + 10)".
Proof.
  split; [reflexivity|].
  apply (reassemble_tokens "2 * (x_1 + 10)"); reflexivity.
Defined.

(* ------------------------------------------------------------------ *)
(** ** When [tokenize] fails *)

(** Claim C10: [tokenize] fails exactly when the stripped input is empty;
    otherwise it returns tokens made only of letters, digits, [_],
    operator characters and the point, so any other character is dropped
    without an error: ["2@+3"] gives the tokens of ["2+3"]. *)
Theorem tokenize_total (s : string) :
  match Tokenizer.tokenize s with
  | None => Py.strip (list_ascii_of_string s) = []
  | Some toks =>
      Py.strip (list_ascii_of_string s) <> []
      /\ Forall (fun t => Forall token_char (list_ascii_of_string t)) toks
  end
  /\ Tokenizer.tokenize "2@+3" = Tokenizer.tokenize "2+3".
Proof.
  split; [|reflexivity].
  unfold Tokenizer.tokenize.
  destruct (Py.strip (list_ascii_of_string s)) as [| c l] eqn:Es; [reflexivity|].
  split; [discriminate|].
  induction (TokenizerFacts.findall_token_chars
               (length (Py.remove_char " " (c :: l))) (Py.remove_char " " (c :: l)))
    as [| t ts Ht _ IH]; constructor; [|exact IH].
  rewrite list_ascii_of_string_of_list_ascii. exact Ht.
Qed.

(* ------------------------------------------------------------------ *)
(** ** Stepping through the descent on literal operands *)

Module EvalSteps.
Import Calc.

Lemma ident_start_not_digit (c : ascii) :
  Tokenizer.ident_start c = true ->
  Py.is_digit_char c = false /\ Ascii.eqb c "." = false.
Proof.
  intro H. destruct c as [[] [] [] [] [] [] [] []];
    vm_compute in H |- *; first [discriminate | auto].
Qed.

Lemma identifier_not_digit (t : string) :
  Tokenizer.is_identifier t = true -> Tokenizer.is_digit_token t = false.
Proof.
  unfold Tokenizer.is_identifier, Tokenizer.is_digit_token.
  destruct (list_ascii_of_string t) as [| c r]; [discriminate|].
  intro H. apply andb_prop in H as [Hc _].
  destruct (ident_start_not_digit c Hc) as [Hd Hp].
  unfold Py.remove_char, Py.isdigit. cbn [List.filter]. rewrite Hp. simpl.
  rewrite Hd. reflexivity.
Qed.

Lemma identifier_facts (t : string) :
  Tokenizer.is_identifier t = true ->
  String.eqb t "(" = false /\ is_additive_op t = false.
Proof.
  intro H.
  assert (Hne : forall k, Tokenizer.is_identifier k = false -> String.eqb t k = false).
  { intros k Hk. destruct (String.eqb_spec t k); [subst; congruence | reflexivity]. }
  unfold is_additive_op.
  rewrite (Hne "(" eq_refl), (Hne "+" eq_refl), (Hne "-" eq_refl). auto.
Qed.

Lemma nth_skipn (toks : list string) (q k : nat) :
  nth_error toks (q + k) = nth_error (skipn q toks) k.
Proof.
  revert toks. induction q as [| q IH]; intro toks; [reflexivity|].
  destruct toks as [| t r]; simpl; [destruct k; reflexivity | apply IH].
Qed.

Lemma skipn_nth (toks : list string) (q : nat) (t : string) (rest : list string) :
  skipn q toks = t :: rest ->
  nth_error toks q = Some t /\ skipn (S q) toks = rest.
Proof.
  revert toks. induction q as [| q IH]; intros toks H.
  - destruct toks; simpl in *; [discriminate|]. injection H as -> ->. auto.
  - destruct toks as [| u r]; [discriminate|]. simpl in H. apply IH in H.
    exact H.
Qed.

Lemma skipn_end (toks : list string) (q : nat) :
  skipn q toks = [] -> nth_error toks q = None.
Proof.
  intro H. rewrite <- (Nat.add_0_r q), nth_skipn, H. reflexivity.
Qed.

Lemma skipn_length_eq (toks : list string) (q : nat) (rest : list string) :
  skipn q toks = rest -> rest <> [] -> q + length rest = length toks.
Proof.
  intros H Hne. rewrite <- H, length_skipn.
  destruct (Nat.le_gt_cases q (length toks)); [lia|].
  exfalso. apply Hne. rewrite <- H. apply skipn_all2. lia.
Qed.

Section WithSem.
Variable fs : FloatSem.
Local Abbreviation value := (num (flt fs)).

Lemma multiplicative_unfold f :
  handle_multiplicative_expression fs (S f) =
  bind fs (handle_power_expression fs f)
    (fun result => bind fs (loop_bound fs) (fun n => Loops.mul_loop fs f n result)).
Proof. reflexivity. Qed.

Lemma additive_unfold f :
  handle_additive_expression fs (S f) =
  bind fs (handle_multiplicative_expression fs f)
    (fun result => bind fs (loop_bound fs) (fun n => Loops.add_loop fs f n result)).
Proof. reflexivity. Qed.

Lemma function_call_unfold f name :
  existsb (String.eqb name) function_names = true ->
  handle_function_call fs (S f) name =
  bind fs (consume_token fs (Some "("%string)) (fun _ =>
  bind fs (get_current_token fs) (fun current =>
  bind fs (if token_is current ")" then ret fs []
           else bind fs (handle_expression fs f) (fun first =>
                bind fs (loop_bound fs) (fun n => Loops.args_loop fs f n [first])))
    (fun arguments =>
     bind fs (consume_token fs (Some ")"%string)) (fun _ =>
     match builtin fs name arguments with
     | Some v => ret fs v
     | None => raise fs (FunctionCallFailed name)
     end)))).
Proof. intro H. cbn [handle_function_call]. rewrite H. reflexivity. Qed.

(** The loop of the multiplicative level. *)
Lemma mul_loop_stop f n r st :
  match nth_error (tokens fs st) (current_position fs st) with
  | Some t => is_multiplicative_op t = false
  | None => True
  end ->
  Loops.mul_loop fs f (S n) r st = (inr r, st).
Proof.
  intro H. simpl. unfold bind at 1, get_current_token.
  destruct (nth_error _ _) as [t|]; [rewrite H|]; reflexivity.
Qed.

Lemma mul_loop_step f n r vars toks p op v st' :
  nth_error toks p = Some op ->
  is_multiplicative_op op = true ->
  handle_power_expression fs f (mk_calc fs vars toks (S p)) = (inr v, st') ->
  Loops.mul_loop fs f (S n) r (mk_calc fs vars toks p) =
  match multiplicative_step fs op r v with
  | inl e => (inl e, st')
  | inr r' => Loops.mul_loop fs f n r' st'
  end.
Proof.
  intros Hn Ho Hp. simpl. unfold bind at 1, get_current_token. simpl.
  rewrite Hn, Ho. erewrite (Steps.bind_consume fs); [| exact Hn | left; reflexivity].
  rewrite (Steps.bind_inr fs _ _ _ _ _ Hp).
  unfold bind, lift. destruct (multiplicative_step fs op r v); reflexivity.
Qed.

Lemma add_loop_stop f n r st :
  match nth_error (tokens fs st) (current_position fs st) with
  | Some t => is_additive_op t = false
  | None => True
  end ->
  Loops.add_loop fs f (S n) r st = (inr r, st).
Proof.
  intro H. simpl. unfold bind at 1, get_current_token.
  destruct (nth_error _ _) as [t|]; [rewrite H|]; reflexivity.
Qed.

Lemma add_loop_step f n r vars toks p op v st' :
  nth_error toks p = Some op ->
  is_additive_op op = true ->
  handle_multiplicative_expression fs f (mk_calc fs vars toks (S p)) = (inr v, st') ->
  Loops.add_loop fs f (S n) r (mk_calc fs vars toks p) =
  match additive_step fs op r v with
  | inl e => (inl e, st')
  | inr r' => Loops.add_loop fs f n r' st'
  end.
Proof.
  intros Hn Ho Hp. simpl. unfold bind at 1, get_current_token. simpl.
  rewrite Hn, Ho. erewrite (Steps.bind_consume fs); [| exact Hn | left; reflexivity].
  rewrite (Steps.bind_inr fs _ _ _ _ _ Hp).
  unfold bind, lift. destruct (additive_step fs op r v); reflexivity.
Qed.

Lemma args_loop_stop f n acc st :
  token_is (nth_error (tokens fs st) (current_position fs st)) "," = false ->
  Loops.args_loop fs f (S n) acc st = (inr acc, st).
Proof.
  intro H. simpl. unfold bind at 1, get_current_token. rewrite H. reflexivity.
Qed.

Lemma args_loop_step f n acc vars toks p a st' :
  nth_error toks p = Some ","%string ->
  handle_expression fs f (mk_calc fs vars toks (S p)) = (inr a, st') ->
  Loops.args_loop fs f (S n) acc (mk_calc fs vars toks p) =
  Loops.args_loop fs f n (acc ++ [a]) st'.
Proof.
  intros Hn Hp. simpl. unfold bind at 1, get_current_token. simpl.
  rewrite Hn. simpl. erewrite (Steps.bind_consume fs); [| exact Hn | right; reflexivity].
  exact (Steps.bind_inr fs _ _ _ _ _ Hp).
Qed.

End WithSem.
End EvalSteps.

Module EvalLevels.
Import Calc.

Section WithSem.
Variable fs : FloatSem.
Local Abbreviation value := (num (flt fs)).

Lemma power_number f vars toks p t v :
  nth_error toks p = Some t ->
  Tokenizer.is_digit_token t = true ->
  parse_number fs t = inr v ->
  token_is (nth_error toks (S p)) "**" = false ->
  handle_power_expression fs (S (S (S f))) (mk_calc fs vars toks p) =
  (inr v, mk_calc fs vars toks (S p)).
Proof.
  intros Hn Hd Hp Hs. cbn [handle_power_expression].
  rewrite (Steps.bind_inr fs _ _ _ v _ (Steps.unary_number fs f vars toks p t v Hn Hd Hp)).
  rewrite Steps.bind_get. cbn [tokens current_position]. rewrite Hs. reflexivity.
Qed.

Lemma power_of_unary f st v st' :
  handle_unary_expression fs f st = (inr v, st') ->
  token_is (nth_error (tokens fs st') (current_position fs st')) "**" = false ->
  handle_power_expression fs (S f) st = (inr v, st').
Proof.
  intros Hu Hs. cbn [handle_power_expression].
  rewrite (Steps.bind_inr fs _ _ _ _ _ Hu), Steps.bind_get, Hs. reflexivity.
Qed.

Lemma power_unary_error f st e st' :
  handle_unary_expression fs f st = (inl e, st') ->
  handle_power_expression fs (S f) st = (inl e, st').
Proof.
  intro Hu. cbn [handle_power_expression]. exact (Steps.bind_inl fs _ _ _ _ _ Hu).
Qed.

Lemma power_of_unary_chain f st v vars toks q w st'' :
  handle_unary_expression fs f st = (inr v, mk_calc fs vars toks q) ->
  nth_error toks q = Some "**"%string ->
  handle_power_expression fs f (mk_calc fs vars toks (S q)) = (inr w, st'') ->
  handle_power_expression fs (S f) st = (power fs v w, st'').
Proof.
  intros Hu Hs Hw. cbn [handle_power_expression].
  rewrite (Steps.bind_inr fs _ _ _ _ _ Hu), Steps.bind_get. cbn [tokens current_position].
  rewrite Hs. simpl. erewrite (Steps.bind_consume fs); [| exact Hs | right; reflexivity].
  rewrite (Steps.bind_inr fs _ _ _ _ _ Hw). reflexivity.
Qed.

Lemma mult_of_power f st v st' :
  handle_power_expression fs f st = (inr v, st') ->
  match nth_error (tokens fs st') (current_position fs st') with
  | Some t => is_multiplicative_op t = false
  | None => True
  end ->
  handle_multiplicative_expression fs (S f) st = (inr v, st').
Proof.
  intros Hp Hs. rewrite EvalSteps.multiplicative_unfold.
  rewrite (Steps.bind_inr fs _ _ _ _ _ Hp).
  exact (EvalSteps.mul_loop_stop fs f _ v st' Hs).
Qed.

Lemma add_of_mult f st v st' :
  handle_multiplicative_expression fs f st = (inr v, st') ->
  match nth_error (tokens fs st') (current_position fs st') with
  | Some t => is_additive_op t = false
  | None => True
  end ->
  handle_additive_expression fs (S f) st = (inr v, st').
Proof.
  intros Hp Hs. rewrite EvalSteps.additive_unfold.
  rewrite (Steps.bind_inr fs _ _ _ _ _ Hp).
  exact (EvalSteps.add_loop_stop fs f _ v st' Hs).
Qed.

Lemma unary_primary f st t :
  nth_error (tokens fs st) (current_position fs st) = Some t ->
  is_additive_op t = false ->
  handle_unary_expression fs (S f) st = handle_primary_expression fs f st.
Proof.
  intros Hn Ha. cbn [handle_unary_expression]. rewrite Steps.bind_get, Hn, Ha.
  reflexivity.
Qed.

Lemma primary_identifier f vars toks p name :
  nth_error toks p = Some name ->
  Tokenizer.is_identifier name = true ->
  handle_primary_expression fs (S f) (mk_calc fs vars toks p) =
  (if token_is (nth_error toks (S p)) "(" then
     handle_function_call fs f name (mk_calc fs vars toks (S p))
   else handle_variable_reference fs name (mk_calc fs vars toks (S p))).
Proof.
  intros Hn Hi. destruct (EvalSteps.identifier_facts name Hi) as [Hpar _].
  pose proof (EvalSteps.identifier_not_digit name Hi) as Hnd.
  cbn [handle_primary_expression].
  unfold bind, get_current_token, call_pred, Tokenizer.call_via_class,
    Tokenizer.call1, ret, consume_token.
  cbn [tokens current_position variables Tokenizer.is_digit_token_body
       Tokenizer.is_identifier_body].
  rewrite Hn. cbn beta iota. rewrite Hpar, Hnd, Hi. cbn beta iota.
  do 3 (cbn [tokens current_position variables]; rewrite ?Hn; cbn beta iota).
  destruct (token_is (nth_error toks (S p)) "("); reflexivity.
Qed.

(** A run of signs before a number literal. *)
Lemma unary_signs (signs : list string) f vars toks p t post v :
  Forall (fun s => s = "+"%string \/ s = "-"%string) signs ->
  skipn p toks = signs ++ t :: post ->
  Tokenizer.is_digit_token t = true ->
  parse_number fs t = inr v ->
  handle_unary_expression fs (S (S (length signs + f))) (mk_calc fs vars toks p) =
  (inr (apply_signs fs signs v), mk_calc fs vars toks (p + length signs + 1)).
Proof.
  intros Hs. revert p. induction Hs as [| s signs Hs1 Hs IH]; intros p Hk Hd Hp.
  - simpl in Hk. apply EvalSteps.skipn_nth in Hk as [Hn _].
    rewrite Nat.add_0_r, Nat.add_1_r.
    exact (Steps.unary_number fs f vars toks p t v Hn Hd Hp).
  - simpl in Hk. apply EvalSteps.skipn_nth in Hk as [Hn Hk].
    specialize (IH (S p) Hk Hd Hp).
    cbn [length Nat.add]. cbn [handle_unary_expression].
    rewrite Steps.bind_get. cbn [tokens current_position]. rewrite Hn.
    assert (Ha : is_additive_op s = true)
      by (destruct Hs1 as [-> | ->]; reflexivity).
    rewrite Ha.
    erewrite (Steps.bind_consume fs); [| exact Hn | left; reflexivity].
    rewrite (Steps.bind_inr fs _ _ _ _ _ IH).
    replace (p + S (length signs) + 1) with (S p + length signs + 1) by lia.
    destruct Hs1 as [-> | ->]; reflexivity.
Qed.


Lemma expression_number f vars toks p t v :
  nth_error toks p = Some t ->
  Tokenizer.is_digit_token t = true ->
  parse_number fs t = inr v ->
  token_is (nth_error toks (S p)) "**" = false ->
  match nth_error toks (S p) with
  | Some u => is_multiplicative_op u = false
  | None => True
  end ->
  match nth_error toks (S p) with
  | Some u => is_additive_op u = false
  | None => True
  end ->
  handle_expression fs (7 + f) (mk_calc fs vars toks p) =
  (inr v, mk_calc fs vars toks (S p)).
Proof.
  intros Hn Hd Hp Hs Hm Ha.
  change (7 + f) with (S (S (5 + f))).
  rewrite (Steps.expression_not_let fs (5 + f) (mk_calc fs vars toks p) t Hn
             (proj1 (Steps.digit_token_not_keyword t Hd))).
  apply (add_of_mult (4 + f)); [|exact Ha].
  apply (mult_of_power (3 + f)); [|exact Hm].
  exact (power_number f vars toks p t v Hn Hd Hp Hs).
Qed.

Lemma separator_stops (u : string) :
  u = ","%string \/ u = ")"%string ->
  token_is (Some u) "**" = false /\ is_multiplicative_op u = false /\
  is_additive_op u = false /\ String.eqb u "(" = false.
Proof. intros [-> | ->]; repeat split. Qed.

Lemma flat_map_separators_head (args post : list string) :
  exists u rest, flat_map (fun a => [","; a]%string) args ++ ")" :: post = u :: rest
                 /\ (u = ","%string \/ u = ")"%string).
Proof. destruct args; simpl; eauto. Qed.

Lemma length_flat_map_separators (args : list string) :
  length (flat_map (fun a => [","; a]%string) args) = 2 * length args.
Proof. induction args as [| a r IH]; simpl; [reflexivity | rewrite IH; lia]. Qed.

Lemma skipn_after (toks : list string) (q : nat) (l r : list string) :
  skipn q toks = l ++ r -> skipn (q + length l) toks = r.
Proof.
  revert q. induction l as [| x l IH]; intros q H.
  - rewrite Nat.add_0_r. exact H.
  - simpl in H. apply EvalSteps.skipn_nth in H as [_ H].
    replace (q + length (x :: l)) with (S q + length l) by (simpl; lia).
    exact (IH _ H).
Qed.

Lemma comma_separated_cons (a : string) (r : list string) :
  comma_separated (a :: r) = a :: flat_map (fun x => [","; x]%string) r.
Proof.
  revert a. induction r as [| b r IH]; intro a; [reflexivity|].
  change (comma_separated (a :: b :: r)) with (a :: ","%string :: comma_separated (b :: r)).
  rewrite IH. reflexivity.
Qed.

Lemma args_loop_numbers f vars toks post args vs :
  Forall2 (fun a v => Tokenizer.is_digit_token a = true /\ parse_number fs a = inr v)
    args vs ->
  forall n acc q,
  skipn q toks = flat_map (fun a => [","; a]%string) args ++ ")" :: post ->
  length args < n ->
  Loops.args_loop fs (7 + f) n acc (mk_calc fs vars toks q) =
  (inr (acc ++ vs), mk_calc fs vars toks (q + 2 * length args)).
Proof.
  induction 1 as [| a v args vs [Hd Hp] _ IH]; intros n acc q Hk Hlt.
  - destruct n as [| n']; [lia|]. simpl in Hk.
    apply EvalSteps.skipn_nth in Hk as [Hn _].
    rewrite app_nil_r, Nat.mul_0_r, Nat.add_0_r.
    apply EvalSteps.args_loop_stop. cbn [tokens current_position]. rewrite Hn. reflexivity.
  - destruct n as [| n']; [lia|]. simpl in Hk, Hlt.
    apply EvalSteps.skipn_nth in Hk as [Hc Hk].
    apply EvalSteps.skipn_nth in Hk as [Ha Hk].
    destruct (flat_map_separators_head args post) as (u & rest & Hu & Hsep).
    pose proof Hk as Hk'. rewrite Hu in Hk'.
    apply EvalSteps.skipn_nth in Hk' as [Hnext _].
    destruct (separator_stops u Hsep) as (S1 & S2 & S3 & _).
    assert (He : handle_expression fs (7 + f) (mk_calc fs vars toks (S q)) =
                 (inr v, mk_calc fs vars toks (S (S q)))).
    { apply (expression_number f vars toks (S q) a v Ha Hd Hp);
        rewrite Hnext; assumption. }
    rewrite (EvalSteps.args_loop_step fs _ n' acc vars toks q v _ Hc He).
    pose proof (IH n' (acc ++ [v]) (S (S q)) Hk ltac:(lia)) as IH'.
    rewrite <- app_assoc in IH'. cbn [app] in IH'.
    replace (q + 2 * length (a :: args)) with (S (S q) + 2 * length args) by (simpl; lia).
    exact IH'.
Qed.


Lemma digit_not_close (a : string) :
  Tokenizer.is_digit_token a = true -> String.eqb a ")" = false.
Proof.
  intro H. destruct (String.eqb_spec a ")"); [subst; discriminate | reflexivity].
Qed.

(** A call [name(a1, ..., an)] of a built-in on number literals. *)
Lemma function_call_numbers f vars toks p name args vs post :
  existsb (String.eqb name) function_names = true ->
  Forall2 (fun a v => Tokenizer.is_digit_token a = true /\ parse_number fs a = inr v)
    args vs ->
  skipn p toks = "("%string :: comma_separated args ++ ")"%string :: post ->
  handle_function_call fs (S (7 + f)) name (mk_calc fs vars toks p) =
  (match builtin fs name vs with
   | Some r => inr r
   | None => inl (FunctionCallFailed name)
   end,
   mk_calc fs vars toks (p + length (comma_separated args) + 2)).
Proof.
  intros Hname Hargs Hk.
  rewrite (EvalSteps.function_call_unfold fs _ name Hname).
  apply EvalSteps.skipn_nth in Hk as [Hopen Hk].
  erewrite (Steps.bind_consume fs); [| exact Hopen | right; reflexivity].
  rewrite Steps.bind_get. cbn [tokens current_position].
  destruct Hargs as [| a v args vs [Hd Hp] Hargs].
  - simpl in Hk. apply EvalSteps.skipn_nth in Hk as [Hclose _].
    rewrite Hclose. cbn [token_is]. rewrite String.eqb_refl.
    rewrite (Steps.bind_inr fs (ret fs []) _ _ [] _ eq_refl).
    erewrite (Steps.bind_consume fs); [| exact Hclose | right; reflexivity].
    replace (p + length (comma_separated []) + 2) with (S (S p)) by (simpl; lia).
    destruct (builtin fs name []); reflexivity.
  - rewrite comma_separated_cons in Hk |- *. cbn [app] in Hk.
    apply EvalSteps.skipn_nth in Hk as [Ha Hk].
    rewrite Ha. cbn [token_is]. rewrite (digit_not_close a Hd).
    destruct (flat_map_separators_head args post) as (u & rest & Hu & Hsep).
    pose proof Hk as Hk'. rewrite Hu in Hk'.
    apply EvalSteps.skipn_nth in Hk' as [Hnext _].
    destruct (separator_stops u Hsep) as (S1 & S2 & S3 & _).
    assert (He : handle_expression fs (7 + f) (mk_calc fs vars toks (S p)) =
                 (inr v, mk_calc fs vars toks (S (S p)))).
    { apply (expression_number f vars toks (S p) a v Ha Hd Hp);
        rewrite Hnext; assumption. }
    pose proof (EvalSteps.skipn_length_eq toks _ _ Hk) as Hlen.
    rewrite Hu in Hlen. specialize (Hlen ltac:(discriminate)). rewrite <- Hu in Hlen.
    rewrite length_app, length_flat_map_separators in Hlen. cbn [length] in Hlen.
    assert (Hl : bind fs (handle_expression fs (7 + f))
                   (fun first => bind fs (loop_bound fs)
                      (fun n => Loops.args_loop fs (7 + f) n [first]))
                   (mk_calc fs vars toks (S p)) =
                 (inr (v :: vs), mk_calc fs vars toks (S (S p) + 2 * length args))).
    { rewrite (Steps.bind_inr fs _ _ _ _ _ He). unfold bind at 1, loop_bound.
      cbn [tokens current_position].
      apply (args_loop_numbers f vars toks post args vs Hargs); [exact Hk | lia]. }
    rewrite (Steps.bind_inr fs _ _ _ _ _ Hl).
    pose proof (skipn_after toks _ _ _ Hk) as Hend.
    rewrite length_flat_map_separators in Hend.
    apply EvalSteps.skipn_nth in Hend as [Hclose _].
    erewrite (Steps.bind_consume fs); [| exact Hclose | right; reflexivity].
    replace (p + length (a :: flat_map (fun x => [","; x]%string) args) + 2)
      with (S (S (S p) + 2 * length args))
      by (cbn [length]; rewrite length_flat_map_separators; lia).
    destruct (builtin fs name (v :: vs)); reflexivity.
Qed.

End WithSem.
End EvalLevels.

Module TopLevel.
Import Calc.

(** The cursor only moves forward over existing tokens, and the tokens
    are never replaced inside the descent. *)
Lemma descent_cursor (fs : FloatSem) fuel st :
  tokens fs (snd (handle_expression fs fuel st)) = tokens fs st /\
  current_position fs st <= current_position fs (snd (handle_expression fs fuel st)) /\
  (current_position fs st <= length (tokens fs st) ->
   current_position fs (snd (handle_expression fs fuel st))
     <= length (tokens fs (snd (handle_expression fs fuel st)))).
Proof.
  pose proof (proj1 (Frame.keeps_descent fs
    (fun a b => tokens fs b = tokens fs a /\
                current_position fs a <= current_position fs b /\
                (current_position fs a <= length (tokens fs a) ->
                 current_position fs b <= length (tokens fs b)))
    (fun _ => conj eq_refl (conj (Nat.le_refl _) (fun H => H)))
    (fun s1 s2 s3 H1 H2 =>
       match H1, H2 with
       | conj T1 (conj P1 B1), conj T2 (conj P2 B2) =>
           conj (eq_trans T2 T1) (conj (Nat.le_trans _ _ _ P1 P2) (fun H => B2 (B1 H)))
       end)
    (fun st Hlt => conj eq_refl (conj (Nat.le_succ_diag_r _) (fun _ => Hlt)))
    fuel)) as H.
  apply H.
Qed.

Lemma calculate_keeps_variables (fs : FloatSem) expression st :
  variables fs (snd (calculate fs expression st)) = variables fs st.
Proof.
  destruct (Tokenizer.tokenize expression) as [toks|] eqn:Ht.
  - rewrite (calculate_unfold fs expression st toks Ht).
    pose proof (descent_keeps_variables fs (recursion_budget toks)
                  (mk_calc fs (variables fs st) toks 0)) as H.
    destruct (handle_expression _ _ _) as [[e | v] st1]; simpl in *; [exact H|].
    destruct (negb _); exact H.
  - unfold calculate. rewrite Ht. destruct (Py.strip _); reflexivity.
Qed.

Lemma builtin_names_identifiers (name : string) :
  existsb (String.eqb name) function_names = true ->
  Tokenizer.is_identifier name = true /\ String.eqb name "let" = false.
Proof.
  intro H. apply existsb_exists in H as (x & Hin & Hx).
  apply String.eqb_eq in Hx. subst x.
  repeat (destruct Hin as [<- | Hin]; [split; reflexivity|]). destruct Hin.
Qed.

Section WithSem.
Variable fs : FloatSem.
Local Abbreviation value := (num (flt fs)).

(** How [calculate] ends once the additive level has run over the whole
    token list. *)
Lemma calculate_of_additive expression st toks c t (r : error + value) st' :
  Tokenizer.tokenize expression = Some toks ->
  recursion_budget toks = S (S c) ->
  nth_error toks 0 = Some t ->
  String.eqb t "let" = false ->
  handle_additive_expression fs c (mk_calc fs (variables fs st) toks 0) = (r, st') ->
  tokens fs st' = toks ->
  (forall v, r = inr v -> current_position fs st' = length toks) ->
  fst (calculate fs expression st) = r.
Proof.
  intros Ht Hb Hn Hl Ha Htok Hpos.
  rewrite (calculate_unfold fs expression st toks Ht), Hb.
  rewrite (Steps.expression_not_let fs c (mk_calc fs (variables fs st) toks 0) t Hn Hl), Ha.
  destruct r as [e | v]; [reflexivity|].
  rewrite Htok, (Hpos v eq_refl), Nat.eqb_refl. reflexivity.
Qed.

Lemma additive_of_power c st (r : error + value) st' :
  handle_power_expression fs c st = (r, st') ->
  (forall v, r = inr v -> nth_error (tokens fs st') (current_position fs st') = None) ->
  handle_additive_expression fs (S (S c)) st = (r, st').
Proof.
  intros Hp Hend. destruct r as [e | v].
  - exact (Steps.additive_error fs _ _ e _ (Steps.multiplicative_error fs _ _ e _ Hp)).
  - apply (EvalLevels.add_of_mult fs); [apply (EvalLevels.mult_of_power fs); [exact Hp|]|];
      rewrite (Hend v eq_refl); exact I.
Qed.

Lemma power_of_unary_end c st (r : error + value) st' :
  handle_unary_expression fs c st = (r, st') ->
  (forall v, r = inr v -> nth_error (tokens fs st') (current_position fs st') = None) ->
  handle_power_expression fs (S c) st = (r, st').
Proof.
  intros Hu Hend. destruct r as [e | v].
  - exact (EvalLevels.power_unary_error fs _ _ e _ Hu).
  - apply (EvalLevels.power_of_unary fs _ _ v _ Hu). rewrite (Hend v eq_refl). reflexivity.
Qed.

Lemma mult_number g vars toks p t v :
  nth_error toks p = Some t ->
  Tokenizer.is_digit_token t = true ->
  parse_number fs t = inr v ->
  token_is (nth_error toks (S p)) "**" = false ->
  match nth_error toks (S p) with
  | Some u => is_multiplicative_op u = false
  | None => True
  end ->
  handle_multiplicative_expression fs (S (S (S (S g)))) (mk_calc fs vars toks p) =
  (inr v, mk_calc fs vars toks (S p)).
Proof.
  intros Hn Hd Hp Hs Hm.
  apply (EvalLevels.mult_of_power fs); [|exact Hm].
  exact (EvalLevels.power_number fs g vars toks p t v Hn Hd Hp Hs).
Qed.

Lemma add_loop_step_error f n r vars toks p op e st' :
  nth_error toks p = Some op ->
  is_additive_op op = true ->
  handle_multiplicative_expression fs f (mk_calc fs vars toks (S p)) = (inl e, st') ->
  Loops.add_loop fs f (S n) r (mk_calc fs vars toks p) = (inl e, st').
Proof.
  intros Hn Ho Hp. simpl. unfold bind at 1, get_current_token. simpl.
  rewrite Hn, Ho. erewrite (Steps.bind_consume fs); [| exact Hn | left; reflexivity].
  exact (Steps.bind_inl fs _ _ _ _ _ Hp).
Qed.

End WithSem.
End TopLevel.

(** Chains of binary operators over number literals. *)
Module Chains.
Import Calc.

Lemma digit_not_let (a : string) :
  Tokenizer.is_digit_token a = true -> String.eqb a "let" = false.
Proof.
  intro H. destruct (String.eqb_spec a "let"); [subst; discriminate | reflexivity].
Qed.

Section WithSem.
Variable fs : FloatSem.
Local Abbreviation value := (num (flt fs)).

(** [handle_power_expression] on [operand ** rest], whatever [rest] gives. *)
Lemma power_chain_any f st v vars toks q (r : error + value) st'' :
  handle_unary_expression fs f st = (inr v, mk_calc fs vars toks q) ->
  nth_error toks q = Some "**"%string ->
  handle_power_expression fs f (mk_calc fs vars toks (S q)) = (r, st'') ->
  handle_power_expression fs (S f) st =
  (match r with inl e => inl e | inr w => power fs v w end, st'').
Proof.
  intros Hu Hs Hw. destruct r as [e | w].
  - cbn [handle_power_expression].
    rewrite (Steps.bind_inr fs _ _ _ _ _ Hu), Steps.bind_get. cbn [tokens current_position].
    rewrite Hs. simpl. erewrite (Steps.bind_consume fs); [| exact Hs | right; reflexivity].
    exact (Steps.bind_inl fs _ _ _ _ _ Hw).
  - exact (EvalLevels.power_of_unary_chain fs f st v vars toks q w st'' Hu Hs Hw).
Qed.

Lemma additive_of_mult_any c st (r : error + value) st' :
  handle_multiplicative_expression fs c st = (r, st') ->
  (forall v, r = inr v -> nth_error (tokens fs st') (current_position fs st') = None) ->
  handle_additive_expression fs (S c) st = (r, st').
Proof.
  intros Hm Hend. destruct r as [e | v].
  - exact (Steps.additive_error fs _ _ e _ Hm).
  - apply (EvalLevels.add_of_mult fs); [exact Hm|]. rewrite (Hend v eq_refl). exact I.
Qed.

(** [b op c] at the multiplicative level, ending the input. *)
Lemma mult_pair vars toks p b op c vb vc :
  nth_error toks p = Some b ->
  nth_error toks (S p) = Some op ->
  nth_error toks (S (S p)) = Some c ->
  nth_error toks (S (S (S p))) = None ->
  token_is (Some op) "**" = false ->
  is_multiplicative_op op = true ->
  Tokenizer.is_digit_token b = true -> parse_number fs b = inr vb ->
  Tokenizer.is_digit_token c = true -> parse_number fs c = inr vc ->
  length toks = S (S (S p)) ->
  handle_multiplicative_expression fs 45 (mk_calc fs vars toks p) =
  (multiplicative_step fs op vb vc, mk_calc fs vars toks (S (S (S p)))).
Proof.
  intros Hb Ho Hc Hend Hs Hm Hdb Hpb Hdc Hpc Hlen.
  rewrite EvalSteps.multiplicative_unfold.
  rewrite (Steps.bind_inr fs _ _ _ _ _
             (EvalLevels.power_number fs 41 vars toks p b vb Hb Hdb Hpb
                ltac:(rewrite Ho; exact Hs))).
  rewrite (Steps.bind_inr fs (loop_bound fs) _ (mk_calc fs vars toks (S p))
             (S (length toks - S p)) (mk_calc fs vars toks (S p)) eq_refl).
  replace (length toks - S p) with 2 by lia.
  rewrite (EvalSteps.mul_loop_step fs 44 2 vb vars toks (S p) op vc _ Ho Hm
             (EvalLevels.power_number fs 41 vars toks (S (S p)) c vc Hc Hdc Hpc
                ltac:(rewrite Hend; reflexivity))).
  destruct (multiplicative_step fs op vb vc); [reflexivity|].
  apply EvalSteps.mul_loop_stop. cbn [tokens current_position]. rewrite Hend. exact I.
Qed.

(** [a o1 b o2 c] at the multiplicative level, for multiplicative
    operators [o1] and [o2]. *)
Lemma mult_triple vars a o1 b o2 c va vb vc :
  token_is (Some o1) "**" = false -> is_multiplicative_op o1 = true ->
  token_is (Some o2) "**" = false -> is_multiplicative_op o2 = true ->
  Tokenizer.is_digit_token a = true -> parse_number fs a = inr va ->
  Tokenizer.is_digit_token b = true -> parse_number fs b = inr vb ->
  Tokenizer.is_digit_token c = true -> parse_number fs c = inr vc ->
  handle_multiplicative_expression fs 45 (mk_calc fs vars [a; o1; b; o2; c] 0) =
  (match multiplicative_step fs o1 va vb with
   | inl e => inl e
   | inr r => multiplicative_step fs o2 r vc
   end,
   mk_calc fs vars [a; o1; b; o2; c]
     (match multiplicative_step fs o1 va vb with inl _ => 3 | inr _ => 5 end)).
Proof.
  intros S1 M1 S2 M2 Hda Hpa Hdb Hpb Hdc Hpc.
  set (toks := [a; o1; b; o2; c]).
  rewrite EvalSteps.multiplicative_unfold.
  rewrite (Steps.bind_inr fs _ _ _ _ _
             (EvalLevels.power_number fs 41 vars toks 0 a va eq_refl Hda Hpa S1)).
  rewrite (Steps.bind_inr fs (loop_bound fs) _ (mk_calc fs vars toks 1) 5
             (mk_calc fs vars toks 1) eq_refl).
  rewrite (EvalSteps.mul_loop_step fs 44 4 va vars toks 1 o1 vb _ eq_refl M1
             (EvalLevels.power_number fs 41 vars toks 2 b vb eq_refl Hdb Hpb S2)).
  destruct (multiplicative_step fs o1 va vb) as [e | r1]; [reflexivity|].
  rewrite (EvalSteps.mul_loop_step fs 44 3 r1 vars toks 3 o2 vc _ eq_refl M2
             (EvalLevels.power_number fs 41 vars toks 4 c vc eq_refl Hdc Hpc eq_refl)).
  destruct (multiplicative_step fs o2 r1 vc); [reflexivity|].
  apply EvalSteps.mul_loop_stop. exact I.
Qed.

End WithSem.

Lemma mult_op_props (o : string) :
  o = "*"%string \/ o = "/"%string \/ o = "//"%string \/ o = "%"%string ->
  token_is (Some o) "**" = false /\ is_multiplicative_op o = true /\
  is_additive_op o = false.
Proof. intros [-> | [-> | [-> | ->]]]; repeat split. Qed.

Lemma add_op_props (o : string) :
  o = "+"%string \/ o = "-"%string ->
  token_is (Some o) "**" = false /\ is_multiplicative_op o = false /\
  is_additive_op o = true.
Proof. intros [-> | ->]; repeat split. Qed.

Lemma signs_head_not_let (signs : list string) (a : string) (post : list string) :
  Forall (fun s => s = "+"%string \/ s = "-"%string) signs ->
  Tokenizer.is_digit_token a = true ->
  exists t, nth_error (signs ++ a :: post) 0 = Some t /\ String.eqb t "let" = false.
Proof.
  intros Hs Hd. destruct Hs as [| s signs [-> | ->] _].
  - exists a. split; [reflexivity | exact (digit_not_let a Hd)].
  - exists "+"%string. split; reflexivity.
  - exists "-"%string. split; reflexivity.
Qed.

Lemma nth_after_signs (signs l : list string) (k : nat) :
  nth_error (signs ++ l) (length signs + k) = nth_error l k.
Proof. rewrite nth_error_app2 by lia. f_equal. lia. Qed.

End Chains.

(** Steps of the interactive loop. *)
Module MainSteps.

Section WithSem.
Variable fs : FloatSem.

Definition not_listing (o : Main.output fs) : Prop :=
  match o with Main.VariablesListed _ _ => False | _ => True end.

(** One iteration keeps an empty variable table empty and does not list it. *)
Lemma main_step_keeps_empty st input :
  Calc.variables fs st = ∅ ->
  Forall not_listing (fst (fst (Main.main_step fs st input))) /\
  Calc.variables fs (snd (Main.main_step fs st input)) = ∅.
Proof.
  intro Hv. unfold Main.main_step.
  destruct input as [line|]; [| split; [repeat constructor | exact Hv]].
  destruct (Main.contains _ _); [split; [repeat constructor | exact Hv]|].
  destruct (Py.strip _) as [| c u]; [split; [constructor | exact Hv]|].
  unfold Main.get_variables.
  destruct (String.eqb _ "vars").
  { rewrite bool_decide_eq_true_2 by exact Hv. split; [repeat constructor | exact Hv]. }
  destruct (String.eqb _ "funcs"); [split; [repeat constructor | exact Hv]|].
  destruct (String.eqb _ "clear"); [split; [repeat constructor | reflexivity]|].
  pose proof (TopLevel.calculate_keeps_variables fs (string_of_list_ascii (c :: u)) st) as Hk.
  destruct (Calc.calculate fs _ st) as [[e | v] st'].
  - cbn [snd] in Hk. rewrite Hv in Hk.
    destruct (Main.is_value_error e); (split; [repeat constructor | exact Hk]).
  - cbn [snd] in Hk. rewrite Hv in Hk. split; [repeat constructor | exact Hk].
Qed.

End WithSem.

End MainSteps.

(** The first token of a primary expression. *)
Module Primary.
Import Calc.

Section WithSem.
Variable fs : FloatSem.
Local Abbreviation value := (num (flt fs)).

Lemma primary_other f vars toks p t :
  nth_error toks p = Some t ->
  String.eqb t "(" = false ->
  Tokenizer.is_digit_token t = false ->
  Tokenizer.is_identifier t = false ->
  handle_primary_expression fs (S f) (mk_calc fs vars toks p) =
  (inl (UnexpectedOperand t), mk_calc fs vars toks p).
Proof.
  intros Hn Hpar Hnd Hni. cbn [handle_primary_expression].
  unfold bind, get_current_token, call_pred, Tokenizer.call_via_class,
    Tokenizer.call1, ret, raise.
  cbn [tokens current_position variables Tokenizer.is_digit_token_body
       Tokenizer.is_identifier_body].
  rewrite Hn. cbn beta iota. rewrite Hpar, Hnd, Hni. reflexivity.
Qed.

Lemma primary_paren f vars toks p v q :
  nth_error toks p = Some "("%string ->
  handle_expression fs f (mk_calc fs vars toks (S p)) = (inr v, mk_calc fs vars toks q) ->
  handle_primary_expression fs (S f) (mk_calc fs vars toks p) =
  match nth_error toks q with
  | None => (inl UnexpectedEnd, mk_calc fs vars toks q)
  | Some u =>
      if String.eqb u ")" then (inr v, mk_calc fs vars toks (S q))
      else (inl (UnexpectedToken ")" u), mk_calc fs vars toks q)
  end.
Proof.
  intros Hn He. cbn [handle_primary_expression]. rewrite Steps.bind_get.
  cbn [tokens current_position]. rewrite Hn. cbn [String.eqb Ascii.eqb Bool.eqb].
  cbn iota.
  erewrite (Steps.bind_consume fs); [| exact Hn | right; reflexivity].
  rewrite (Steps.bind_inr fs _ _ _ _ _ He).
  unfold bind, consume_token. cbn [tokens current_position variables].
  destruct (nth_error toks q) as [u|]; [| reflexivity].
  destruct (String.eqb u ")"); reflexivity.
Qed.

End WithSem.
End Primary.

(** [expression.replace(' ', '')] commutes with [strip]. *)
Module Spaces.

Local Abbreviation remove := (Py.remove_char " ").

Lemma lstrip_remove (s : list ascii) :
  Py.lstrip (remove s) = remove (Py.lstrip s).
Proof.
  induction s as [| c r IH]; [reflexivity|].
  unfold Py.remove_char in *. cbn [List.filter Py.lstrip].
  destruct (Ascii.eqb c " ") eqn:E.
  - apply Ascii.eqb_eq in E. subst c. exact IH.
  - cbn [negb Py.lstrip]. destruct (Py.is_space c); [exact IH|].
    cbn [List.filter]. rewrite E. reflexivity.
Qed.

Lemma remove_rev (s : list ascii) : remove (rev s) = rev (remove s).
Proof. unfold Py.remove_char. apply List.filter_rev. Qed.

Lemma strip_remove (s : list ascii) : Py.strip (remove s) = remove (Py.strip s).
Proof.
  unfold Py.strip. rewrite lstrip_remove, <- remove_rev, lstrip_remove, remove_rev.
  reflexivity.
Qed.

Lemma remove_idem (s : list ascii) : remove (remove s) = remove s.
Proof.
  induction s as [| c r IH]; [reflexivity|].
  unfold Py.remove_char in *. cbn [List.filter].
  destruct (Ascii.eqb c " ") eqn:E; cbn [negb]; [exact IH|].
  cbn [List.filter]. rewrite E. cbn [negb]. rewrite IH. reflexivity.
Qed.

Lemma lstrip_head (s w : list ascii) (c : ascii) :
  Py.lstrip s = c :: w -> Py.is_space c = false.
Proof.
  induction s as [| d r IH]; [discriminate|].
  cbn [Py.lstrip]. destruct (Py.is_space d) eqn:E; [exact IH|].
  intro H. injection H as -> _. exact E.
Qed.

Lemma remove_strip_nil (s : list ascii) : remove (Py.strip s) = [] -> Py.strip s = [].
Proof.
  unfold Py.strip. destruct (Py.lstrip (rev (Py.lstrip s))) as [| c w] eqn:E;
    [reflexivity|].
  apply lstrip_head in E. cbn [rev]. unfold Py.remove_char.
  rewrite List.filter_app. cbn [List.filter].
  destruct (Ascii.eqb c " ") eqn:Ec.
  - apply Ascii.eqb_eq in Ec. subst c. discriminate E.
  - cbn [negb]. intro H. apply app_eq_nil in H as [_ H]. discriminate H.
Qed.

End Spaces.

(* ------------------------------------------------------------------ *)
(** ** Further properties of the evaluator *)

(** [Calculator.calculate]: a blank input fails with the empty-expression
    error and leaves the calculator untouched (the tokens and cursor of
    the previous call stay).  Any other input is tokenized; afterwards
    the calculator holds exactly those tokens, the cursor lies within
    them whether evaluation succeeded or failed, and after a success it
    is at their end. *)
Theorem calculate_state_after (fs : FloatSem) (expression : string) (st : Calc.calc fs) :
  (Py.strip (list_ascii_of_string expression) = [] ->
   Calc.calculate fs expression st = (inl EmptyExpression, st)) /\
  (Py.strip (list_ascii_of_string expression) <> [] ->
   exists toks, Tokenizer.tokenize expression = Some toks /\
     Calc.tokens fs (snd (Calc.calculate fs expression st)) = toks /\
     Calc.current_position fs (snd (Calc.calculate fs expression st)) <= length toks /\
     (forall v, fst (Calc.calculate fs expression st) = inr v ->
        Calc.current_position fs (snd (Calc.calculate fs expression st)) = length toks)).
Proof.
  split.
  - intro E. unfold Calc.calculate. rewrite E. reflexivity.
  - intro E.
    assert (Ht : exists toks, Tokenizer.tokenize expression = Some toks).
    { unfold Tokenizer.tokenize. destruct (Py.strip _); [contradiction|]. eauto. }
    destruct Ht as [toks Ht]. exists toks. split; [exact Ht|].
    rewrite (calculate_unfold fs expression st toks Ht).
    pose proof (TopLevel.descent_cursor fs (Calc.recursion_budget toks)
                  (Calc.mk_calc fs (Calc.variables fs st) toks 0)) as (T & _ & B).
    destruct (Calc.handle_expression _ _ _) as [[e | v] st1]; cbn [snd fst] in *;
      cbn [Calc.tokens Calc.current_position] in T, B;
      specialize (B (Nat.le_0_l _)); rewrite T in B.
    + split; [exact T|]. split; [exact B | discriminate].
    + destruct (Nat.eqb_spec (Calc.current_position fs st1) (length (Calc.tokens fs st1)))
        as [Heq | Hne]; cbn [negb snd fst].
      * split; [exact T|]. split; [exact B|]. intros; rewrite Heq, T; reflexivity.
      * split; [exact T|]. split; [exact B | discriminate].
Qed.

Lemma calculate_state_after_witness :
  Calc.calculate ExactFloat.sem "   " (fresh ExactFloat.sem)
    = (inl EmptyExpression, fresh ExactFloat.sem) /\
  exists toks, Tokenizer.tokenize "(1" = Some toks /\
     Calc.tokens ExactFloat.sem (snd (Calc.calculate ExactFloat.sem "(1" (fresh ExactFloat.sem))) = toks /\
     Calc.current_position ExactFloat.sem
       (snd (Calc.calculate ExactFloat.sem "(1" (fresh ExactFloat.sem))) <= length toks /\
     (forall v, fst (Calc.calculate ExactFloat.sem "(1" (fresh ExactFloat.sem)) = inr v ->
        Calc.current_position ExactFloat.sem
          (snd (Calc.calculate ExactFloat.sem "(1" (fresh ExactFloat.sem))) = length toks).
Proof.
  split.
  - apply (proj1 (calculate_state_after ExactFloat.sem "   " (fresh ExactFloat.sem))).
    vm_eq.
  - apply (proj2 (calculate_state_after ExactFloat.sem "(1" (fresh ExactFloat.sem))).
    vm_compute. discriminate.
Defined.

(** An input that is not blank but contains no token at all (every
    character is dropped by the tokenizer) is not reported as empty: the
    parser finds no operand. *)
Theorem calculate_no_tokens (fs : FloatSem) (expression : string) (st : Calc.calc fs) :
  Tokenizer.tokenize expression = Some [] ->
  Calc.calculate fs expression st =
  (inl ExpectedOperand, Calc.mk_calc fs (Calc.variables fs st) [] 0).
Proof. intro Ht. rewrite (calculate_unfold fs expression st [] Ht). reflexivity. Qed.

Lemma calculate_no_tokens_witness :
  Tokenizer.tokenize "@#$" = Some [] /\
  Calc.calculate ExactFloat.sem "@#$" (fresh ExactFloat.sem) =
  (inl ExpectedOperand, Calc.mk_calc ExactFloat.sem ∅ [] 0).
Proof.
  split; [reflexivity|].
  apply (calculate_no_tokens ExactFloat.sem "@#$" (fresh ExactFloat.sem)). reflexivity.
Defined.

(** [//] and [%] on two [int]s with a nonzero divisor follow Python's
    floor semantics: [a = b * (a // b) + a % b], and the remainder has the
    sign of the divisor and is smaller than it in absolute value. *)
Theorem floor_division_and_modulo (fs : FloatSem) (a b : Z) :
  b <> 0%Z ->
  exists q r,
    Calc.multiplicative_step fs "//" (VInt a) (VInt b) = inr (VInt q) /\
    Calc.multiplicative_step fs "%" (VInt a) (VInt b) = inr (VInt r) /\
    a = (b * q + r)%Z /\
    ((0 < b)%Z -> (0 <= r < b)%Z) /\
    ((b < 0)%Z -> (b < r <= 0)%Z).
Proof.
  intro Hb. exists (a / b)%Z, (a mod b)%Z.
  unfold Calc.multiplicative_step, Calc.is_zero. cbn [String.eqb Ascii.eqb Bool.eqb].
  rewrite (proj2 (Z.eqb_neq b 0) Hb). cbn.
  split; [reflexivity|]. split; [reflexivity|]. split; [apply Z.div_mod, Hb|].
  split; [apply Z.mod_pos_bound | apply Z.mod_neg_bound].
Qed.

Lemma floor_division_and_modulo_witness :
  exists q r,
    Calc.multiplicative_step ExactFloat.sem "//" (VInt (-7)) (VInt 2) = inr (VInt q) /\
    Calc.multiplicative_step ExactFloat.sem "%" (VInt (-7)) (VInt 2) = inr (VInt r) /\
    (-7 = 2 * q + r)%Z /\ ((0 < 2)%Z -> (0 <= r < 2)%Z) /\ ((2 < 0)%Z -> (2 < r <= 0)%Z).
Proof. apply (floor_division_and_modulo ExactFloat.sem (-7) 2). discriminate. Defined.

(** An identifier followed by [(] that is not one of the built-in names
    fails with the unknown-function error, whatever follows the [(]: the
    name is checked before any argument is read. *)
Theorem unknown_function_rejected (fs : FloatSem) (expression : string)
  (st : Calc.calc fs) (name : string) (rest : list string) :
  Tokenizer.tokenize expression = Some (name :: "(" :: rest)%string ->
  Tokenizer.is_identifier name = true ->
  String.eqb name "let" = false ->
  existsb (String.eqb name) Calc.function_names = false ->
  fst (Calc.calculate fs expression st) = inl (UnknownFunction name).
Proof.
  intros Ht Hi Hl Hf.
  apply (TopLevel.calculate_of_additive fs expression st _ (6 + (16 + 8 * length rest))
           name _ (Calc.mk_calc fs (Calc.variables fs st) (name :: "(" :: rest)%string 1)
           Ht); [| reflexivity | exact Hl | | reflexivity | intros v Hv; discriminate].
  - unfold Calc.recursion_budget. cbn [length]. lia.
  - apply TopLevel.additive_of_power; [| intros v Hv; discriminate].
    apply TopLevel.power_of_unary_end; [| intros v Hv; discriminate].
    rewrite (EvalLevels.unary_primary fs _ _ name);
      [| reflexivity | exact (proj2 (EvalSteps.identifier_facts name Hi))].
    rewrite (EvalLevels.primary_identifier fs _ _ _ 0 name); [| reflexivity | exact Hi].
    cbn [nth_error Calc.token_is]. rewrite String.eqb_refl.
    change (16 + 8 * length rest) with (S (15 + 8 * length rest)).
    cbn [Calc.handle_function_call]. rewrite Hf. reflexivity.
Qed.

Lemma unknown_function_rejected_witness :
  fst (Calc.calculate ExactFloat.sem "foo(1, 2" (fresh ExactFloat.sem))
  = inl (UnknownFunction "foo").
Proof.
  apply (unknown_function_rejected ExactFloat.sem "foo(1, 2" (fresh ExactFloat.sem)
           "foo" ["1"; ","; "2"]%string); reflexivity.
Defined.

(** A lone identifier is a variable reference, also when it is the name
    of a built-in function: it evaluates to the stored value, or fails
    with the unknown-variable error. *)
Theorem lone_identifier_is_variable (fs : FloatSem) (expression : string)
  (st : Calc.calc fs) (name : string) :
  Tokenizer.tokenize expression = Some [name] ->
  Tokenizer.is_identifier name = true ->
  String.eqb name "let" = false ->
  fst (Calc.calculate fs expression st) =
  match Calc.variables fs st !! name with
  | Some v => inr v
  | None => inl (UnknownVariable name)
  end.
Proof.
  intros Ht Hi Hl.
  apply (TopLevel.calculate_of_additive fs expression st _ 14 name _
           (Calc.mk_calc fs (Calc.variables fs st) [name] 1) Ht);
    [reflexivity | reflexivity | exact Hl | | reflexivity | intros; reflexivity].
  apply TopLevel.additive_of_power; [| intros; reflexivity].
  apply TopLevel.power_of_unary_end; [| intros; reflexivity].
  rewrite (EvalLevels.unary_primary fs _ _ name);
    [| reflexivity | exact (proj2 (EvalSteps.identifier_facts name Hi))].
  rewrite (EvalLevels.primary_identifier fs _ _ _ 0 name); [| reflexivity | exact Hi].
  cbn [nth_error Calc.token_is]. unfold Calc.handle_variable_reference.
  cbn [Calc.variables]. destruct (_ !! name); reflexivity.
Qed.

Lemma lone_identifier_is_variable_witness :
  fst (Calc.calculate ExactFloat.sem "abs" (fresh ExactFloat.sem))
  = inl (UnknownVariable "abs").
Proof.
  apply (lone_identifier_is_variable ExactFloat.sem "abs" (fresh ExactFloat.sem) "abs");
    reflexivity.
Defined.

(** A call [name(a1, ..., an)] of a built-in on number literals applies
    the built-in to the literals' values in the order written, with no
    arguments for [name()]; a failure of the built-in becomes the
    function-call error. *)
Theorem builtin_call_arguments (fs : FloatSem) (expression : string)
  (st : Calc.calc fs) (name : string) (args : list string) (vs : list (num (flt fs))) :
  existsb (String.eqb name) Calc.function_names = true ->
  Forall2 (fun a v => Tokenizer.is_digit_token a = true /\ Calc.parse_number fs a = inr v)
    args vs ->
  Tokenizer.tokenize expression
    = Some (name :: "(" :: comma_separated args ++ [")"])%string ->
  fst (Calc.calculate fs expression st) =
  match builtin fs name vs with
  | Some r => inr r
  | None => inl (FunctionCallFailed name)
  end.
Proof.
  intros Hname Hargs Ht.
  destruct (TopLevel.builtin_names_identifiers name Hname) as [Hi Hl].
  set (lc := length (comma_separated args)).
  set (toks := (name :: "(" :: comma_separated args ++ [")"])%string) in *.
  assert (Hlen : length toks = 3 + lc)
    by (subst toks lc; cbn [length]; rewrite length_app; cbn [length]; lia).
  apply (TopLevel.calculate_of_additive fs expression st toks (30 + 8 * lc) name _
           (Calc.mk_calc fs (Calc.variables fs st) toks (1 + lc + 2)) Ht);
    [| reflexivity | exact Hl | | reflexivity | intros; cbn [Calc.current_position]; rewrite Hlen; lia].
  - unfold Calc.recursion_budget. rewrite Hlen. lia.
  - assert (Hend : forall v : num (flt fs),
               match builtin fs name vs with
               | Some r => inr r | None => inl (FunctionCallFailed name) end = inr v ->
               nth_error (Calc.tokens fs (Calc.mk_calc fs (Calc.variables fs st) toks (1 + lc + 2)))
                 (Calc.current_position fs (Calc.mk_calc fs (Calc.variables fs st) toks (1 + lc + 2)))
               = None).
    { intros v _. cbn [Calc.tokens Calc.current_position]. apply nth_error_None. lia. }
    apply TopLevel.additive_of_power; [| exact Hend].
    apply TopLevel.power_of_unary_end; [| exact Hend].
    rewrite (EvalLevels.unary_primary fs _ _ name);
      [| reflexivity | exact (proj2 (EvalSteps.identifier_facts name Hi))].
    rewrite (EvalLevels.primary_identifier fs _ _ _ 0 name); [| reflexivity | exact Hi].
    change (Calc.token_is (nth_error toks 1) "(") with true. cbn iota.
    exact (EvalLevels.function_call_numbers fs (17 + 8 * lc) _ toks 1 name args vs []
             Hname Hargs eq_refl).
Qed.

Lemma builtin_call_arguments_witness :
  fst (Calc.calculate ExactFloat.sem "max(3, 7, 5)" (fresh ExactFloat.sem))
  = match builtin ExactFloat.sem "max" [VInt 3; VInt 7; VInt 5] with
    | Some r => inr r
    | None => inl (FunctionCallFailed "max")
    end /\
  run "max(3, 7, 5)" = inr (VInt 7).
Proof.
  split; [| vm_eq].
  apply (builtin_call_arguments ExactFloat.sem "max(3, 7, 5)" (fresh ExactFloat.sem)
           "max" ["3"; "7"; "5"]%string).
  - reflexivity.
  - repeat constructor.
  - reflexivity.
Defined.

(** A number literal preceded by a run of unary [+] and [-] signs
    evaluates to the literal's value with the signs applied from the
    innermost one outwards: each [-] negates, each [+] keeps the value. *)
Theorem sign_prefix_value (fs : FloatSem) (expression : string) (st : Calc.calc fs)
  (signs : list string) (a : string) (va : num (flt fs)) :
  Forall (fun s => s = "+"%string \/ s = "-"%string) signs ->
  Tokenizer.is_digit_token a = true ->
  Calc.parse_number fs a = inr va ->
  Tokenizer.tokenize expression = Some (signs ++ [a]) ->
  fst (Calc.calculate fs expression st) = inr (apply_signs fs signs va).
Proof.
  intros Hs Hda Hpa Ht.
  set (toks := signs ++ [a]) in *.
  set (vars := Calc.variables fs st).
  set (n := length signs).
  destruct (Chains.signs_head_not_let signs a [] Hs Hda) as (t & Ht0 & Hl).
  assert (Hu : Calc.handle_unary_expression fs (11 + 8 * n) (Calc.mk_calc fs vars toks 0) =
               (inr (apply_signs fs signs va), Calc.mk_calc fs vars toks (n + 1))).
  { replace (11 + 8 * n) with (S (S (length signs + (9 + 7 * n)))) by (subst n; lia).
    exact (EvalLevels.unary_signs fs signs (9 + 7 * n) vars toks 0 a [] va
             Hs eq_refl Hda Hpa). }
  assert (Hend : nth_error toks (n + 1) = None).
  { apply nth_error_None. subst toks n. rewrite length_app. cbn [length]. lia. }
  apply (TopLevel.calculate_of_additive fs expression st toks (14 + 8 * n) t _
           (Calc.mk_calc fs vars toks (n + 1)) Ht);
    [| exact Ht0 | exact Hl | | reflexivity
     | intros; cbn [Calc.current_position]; subst toks n; rewrite length_app; cbn [length]; lia].
  - unfold Calc.recursion_budget. subst toks n. rewrite length_app. cbn [length]. lia.
  - apply TopLevel.additive_of_power; [| intros; exact Hend].
    apply TopLevel.power_of_unary_end; [exact Hu | intros; exact Hend].
Qed.

Lemma sign_prefix_value_witness :
  fst (Calc.calculate ExactFloat.sem "-+-7" (fresh ExactFloat.sem))
  = inr (apply_signs ExactFloat.sem ["-"; "+"; "-"]%string (VInt 7)) /\
  run "-+-7" = inr (VInt 7) /\ run "--+-7" = inr (VInt (-7)).
Proof.
  split; [| split; vm_eq].
  apply (sign_prefix_value ExactFloat.sem "-+-7" (fresh ExactFloat.sem)
           ["-"; "+"; "-"]%string "7").
  - repeat (constructor; [first [left; reflexivity | right; reflexivity] |]).
    constructor.
  - reflexivity.
  - reflexivity.
  - reflexivity.
Defined.

(** Unary signs bind tighter than [**]: in [s1 ... sn a ** b] the signs
    apply to [a] before the power is taken, so [-2 ** 2] is [4]. *)
Theorem unary_binds_tighter_than_power (fs : FloatSem) (expression : string)
  (st : Calc.calc fs) (signs : list string) (a b : string) (va vb : num (flt fs)) :
  Forall (fun s => s = "+"%string \/ s = "-"%string) signs ->
  Tokenizer.is_digit_token a = true -> Calc.parse_number fs a = inr va ->
  Tokenizer.is_digit_token b = true -> Calc.parse_number fs b = inr vb ->
  Tokenizer.tokenize expression = Some (signs ++ [a; "**"%string; b]) ->
  fst (Calc.calculate fs expression st) = Calc.power fs (apply_signs fs signs va) vb.
Proof.
  intros Hs Hda Hpa Hdb Hpb Ht.
  set (toks := (signs ++ [a; "**"%string; b])) in *.
  set (vars := Calc.variables fs st).
  set (n := length signs).
  destruct (Chains.signs_head_not_let signs a ["**"; b]%string Hs Hda) as (t & Ht0 & Hl).
  assert (Hu : Calc.handle_unary_expression fs (27 + 8 * n) (Calc.mk_calc fs vars toks 0) =
               (inr (apply_signs fs signs va), Calc.mk_calc fs vars toks (n + 1))).
  { replace (27 + 8 * n) with (S (S (length signs + (25 + 7 * n)))) by (subst n; lia).
    exact (EvalLevels.unary_signs fs signs (25 + 7 * n) vars toks 0 a ["**"; b]%string va
             Hs eq_refl Hda Hpa). }
  assert (Hpow : nth_error toks (n + 1) = Some "**"%string)
    by exact (Chains.nth_after_signs signs [a; "**"; b]%string 1).
  assert (Hb : nth_error toks (S (n + 1)) = Some b).
  { replace (S (n + 1)) with (length signs + 2) by (subst n; lia).
    exact (Chains.nth_after_signs signs [a; "**"; b]%string 2). }
  assert (Hend : nth_error toks (S (S (n + 1))) = None).
  { apply nth_error_None. subst toks n. rewrite length_app. cbn [length]. lia. }
  assert (Hw : Calc.handle_power_expression fs (27 + 8 * n)
                 (Calc.mk_calc fs vars toks (S (n + 1))) =
               (inr vb, Calc.mk_calc fs vars toks (S (S (n + 1))))).
  { exact (EvalLevels.power_number fs (24 + 8 * n) vars toks (S (n + 1)) b vb Hb Hdb Hpb
             ltac:(rewrite Hend; reflexivity)). }
  apply (TopLevel.calculate_of_additive fs expression st toks (30 + 8 * n) t _
           (Calc.mk_calc fs vars toks (S (S (n + 1)))) Ht);
    [| exact Ht0 | exact Hl | | reflexivity
     | intros; cbn [Calc.current_position]; subst toks n; rewrite length_app; cbn [length]; lia].
  - unfold Calc.recursion_budget. subst toks n. rewrite length_app. cbn [length]. lia.
  - apply TopLevel.additive_of_power; [| intros; exact Hend].
    exact (Chains.power_chain_any fs (27 + 8 * n) _ _ vars toks (n + 1) (inr vb) _ Hu Hpow Hw).
Qed.

Lemma unary_binds_tighter_than_power_witness :
  fst (Calc.calculate ExactFloat.sem "-2 ** 2" (fresh ExactFloat.sem))
  = Calc.power ExactFloat.sem (apply_signs ExactFloat.sem ["-"]%string (VInt 2)) (VInt 2) /\
  run "-2 ** 2" = inr (VInt 4).
Proof.
  split; [| vm_eq].
  apply (unary_binds_tighter_than_power ExactFloat.sem "-2 ** 2" (fresh ExactFloat.sem)
           ["-"]%string "2" "2").
  - repeat (constructor; [first [left; reflexivity | right; reflexivity] |]).
    constructor.
  - reflexivity.
  - reflexivity.
  - reflexivity.
  - reflexivity.
  - reflexivity.
Defined.

(** [+] and [-] associate to the left: [a o1 b o2 c] applies [o1] to [a]
    and [b] first, then [o2] to that result and [c]; an error of the first
    step is the result. *)
Theorem additive_left_associative (fs : FloatSem) (expression : string) (st : Calc.calc fs)
  (a o1 b o2 c : string) (va vb vc : num (flt fs)) :
  o1 = "+"%string \/ o1 = "-"%string ->
  o2 = "+"%string \/ o2 = "-"%string ->
  Tokenizer.is_digit_token a = true -> Calc.parse_number fs a = inr va ->
  Tokenizer.is_digit_token b = true -> Calc.parse_number fs b = inr vb ->
  Tokenizer.is_digit_token c = true -> Calc.parse_number fs c = inr vc ->
  Tokenizer.tokenize expression = Some [a; o1; b; o2; c] ->
  fst (Calc.calculate fs expression st) =
  match Calc.additive_step fs o1 va vb with
  | inl e => inl e
  | inr r => Calc.additive_step fs o2 r vc
  end.
Proof.
  intros Ho1 Ho2 Hda Hpa Hdb Hpb Hdc Hpc Ht.
  destruct (Chains.add_op_props o1 Ho1) as (S1 & M1 & A1).
  destruct (Chains.add_op_props o2 Ho2) as (S2 & M2 & A2).
  set (toks := [a; o1; b; o2; c]) in *.
  set (vars := Calc.variables fs st).
  apply (TopLevel.calculate_of_additive fs expression st toks 46 a _
           (Calc.mk_calc fs vars toks
              (match Calc.additive_step fs o1 va vb with inl _ => 3 | inr _ => 5 end)) Ht);
    [reflexivity | reflexivity | exact (Chains.digit_not_let a Hda) | | reflexivity
     | intros v; destruct (Calc.additive_step fs o1 va vb); [discriminate | reflexivity]].
  rewrite EvalSteps.additive_unfold.
  rewrite (Steps.bind_inr fs _ _ _ _ _
             (TopLevel.mult_number fs 41 vars toks 0 a va eq_refl Hda Hpa S1 M1)).
  rewrite (Steps.bind_inr fs (Calc.loop_bound fs) _ (Calc.mk_calc fs vars toks 1) 5
             (Calc.mk_calc fs vars toks 1) eq_refl).
  rewrite (EvalSteps.add_loop_step fs 45 4 va vars toks 1 o1 vb _ eq_refl A1
             (TopLevel.mult_number fs 41 vars toks 2 b vb eq_refl Hdb Hpb S2 M2)).
  destruct (Calc.additive_step fs o1 va vb) as [e | r1]; [reflexivity|].
  rewrite (EvalSteps.add_loop_step fs 45 3 r1 vars toks 3 o2 vc _ eq_refl A2
             (TopLevel.mult_number fs 41 vars toks 4 c vc eq_refl Hdc Hpc eq_refl I)).
  destruct (Calc.additive_step fs o2 r1 vc); [reflexivity|].
  apply EvalSteps.add_loop_stop. exact I.
Qed.

Lemma additive_left_associative_witness :
  fst (Calc.calculate ExactFloat.sem "10 - 4 - 3" (fresh ExactFloat.sem))
  = match Calc.additive_step ExactFloat.sem "-" (VInt 10) (VInt 4) with
    | inl e => inl e
    | inr r => Calc.additive_step ExactFloat.sem "-" r (VInt 3)
    end /\
  run "10 - 4 - 3" = inr (VInt 3).
Proof.
  split; [| vm_eq].
  apply (additive_left_associative ExactFloat.sem "10 - 4 - 3" (fresh ExactFloat.sem)
           "10" "-" "4" "-" "3"); auto.
Defined.

(** [*], [/], [//] and [%] associate to the left: [a o1 b o2 c] applies
    [o1] to [a] and [b] first, then [o2] to that result and [c]; an
    error of the first step is the result. *)
Theorem multiplicative_left_associative (fs : FloatSem) (expression : string)
  (st : Calc.calc fs) (a o1 b o2 c : string) (va vb vc : num (flt fs)) :
  o1 = "*"%string \/ o1 = "/"%string \/ o1 = "//"%string \/ o1 = "%"%string ->
  o2 = "*"%string \/ o2 = "/"%string \/ o2 = "//"%string \/ o2 = "%"%string ->
  Tokenizer.is_digit_token a = true -> Calc.parse_number fs a = inr va ->
  Tokenizer.is_digit_token b = true -> Calc.parse_number fs b = inr vb ->
  Tokenizer.is_digit_token c = true -> Calc.parse_number fs c = inr vc ->
  Tokenizer.tokenize expression = Some [a; o1; b; o2; c] ->
  fst (Calc.calculate fs expression st) =
  match Calc.multiplicative_step fs o1 va vb with
  | inl e => inl e
  | inr r => Calc.multiplicative_step fs o2 r vc
  end.
Proof.
  intros Ho1 Ho2 Hda Hpa Hdb Hpb Hdc Hpc Ht.
  destruct (Chains.mult_op_props o1 Ho1) as (S1 & M1 & _).
  destruct (Chains.mult_op_props o2 Ho2) as (S2 & M2 & _).
  pose proof (Chains.mult_triple fs (Calc.variables fs st) a o1 b o2 c va vb vc
                S1 M1 S2 M2 Hda Hpa Hdb Hpb Hdc Hpc) as Hm.
  apply (TopLevel.calculate_of_additive fs expression st _ 46 a _
           (Calc.mk_calc fs (Calc.variables fs st) [a; o1; b; o2; c]
              (match Calc.multiplicative_step fs o1 va vb with inl _ => 3 | inr _ => 5 end))
           Ht);
    [reflexivity | reflexivity | exact (Chains.digit_not_let a Hda) | | reflexivity
     | intros v; destruct (Calc.multiplicative_step fs o1 va vb); [discriminate | reflexivity]].
  apply Chains.additive_of_mult_any; [exact Hm|].
  intros v; destruct (Calc.multiplicative_step fs o1 va vb); [discriminate | reflexivity].
Qed.

Lemma multiplicative_left_associative_witness :
  fst (Calc.calculate ExactFloat.sem "100 // 7 % 4" (fresh ExactFloat.sem))
  = match Calc.multiplicative_step ExactFloat.sem "//" (VInt 100) (VInt 7) with
    | inl e => inl e
    | inr r => Calc.multiplicative_step ExactFloat.sem "%" r (VInt 4)
    end /\
  run "100 // 7 % 4" = inr (VInt 2).
Proof.
  split; [| vm_eq].
  apply (multiplicative_left_associative ExactFloat.sem "100 // 7 % 4"
           (fresh ExactFloat.sem) "100" "//" "7" "%" "4"); auto.
Defined.

(** The multiplicative operators bind tighter than [+] and [-]:
    [a o1 b o2 c] with an additive [o1] and a multiplicative [o2]
    computes [b o2 c] first and adds it to or subtracts it from [a]; an
    error of [b o2 c] is the result. *)
Theorem multiplicative_before_additive (fs : FloatSem) (expression : string)
  (st : Calc.calc fs) (a o1 b o2 c : string) (va vb vc : num (flt fs)) :
  o1 = "+"%string \/ o1 = "-"%string ->
  o2 = "*"%string \/ o2 = "/"%string \/ o2 = "//"%string \/ o2 = "%"%string ->
  Tokenizer.is_digit_token a = true -> Calc.parse_number fs a = inr va ->
  Tokenizer.is_digit_token b = true -> Calc.parse_number fs b = inr vb ->
  Tokenizer.is_digit_token c = true -> Calc.parse_number fs c = inr vc ->
  Tokenizer.tokenize expression = Some [a; o1; b; o2; c] ->
  fst (Calc.calculate fs expression st) =
  match Calc.multiplicative_step fs o2 vb vc with
  | inl e => inl e
  | inr m => Calc.additive_step fs o1 va m
  end.
Proof.
  intros Ho1 Ho2 Hda Hpa Hdb Hpb Hdc Hpc Ht.
  destruct (Chains.add_op_props o1 Ho1) as (S1 & M1 & A1).
  destruct (Chains.mult_op_props o2 Ho2) as (S2 & M2 & _).
  set (toks := [a; o1; b; o2; c]) in *.
  set (vars := Calc.variables fs st).
  pose proof (Chains.mult_pair fs vars toks 2 b o2 c vb vc eq_refl eq_refl eq_refl eq_refl
                S2 M2 Hdb Hpb Hdc Hpc eq_refl) as Hm.
  apply (TopLevel.calculate_of_additive fs expression st toks 46 a _
           (Calc.mk_calc fs vars toks 5) Ht);
    [reflexivity | reflexivity | exact (Chains.digit_not_let a Hda) | | reflexivity
     | intros; reflexivity].
  rewrite EvalSteps.additive_unfold.
  rewrite (Steps.bind_inr fs _ _ _ _ _
             (TopLevel.mult_number fs 41 vars toks 0 a va eq_refl Hda Hpa S1 M1)).
  rewrite (Steps.bind_inr fs (Calc.loop_bound fs) _ (Calc.mk_calc fs vars toks 1) 5
             (Calc.mk_calc fs vars toks 1) eq_refl).
  destruct (Calc.multiplicative_step fs o2 vb vc) as [e | m] eqn:E.
  - exact (TopLevel.add_loop_step_error fs 45 4 va vars toks 1 o1 e _ eq_refl A1 Hm).
  - rewrite (EvalSteps.add_loop_step fs 45 4 va vars toks 1 o1 m _ eq_refl A1 Hm).
    destruct (Calc.additive_step fs o1 va m); [reflexivity|].
    apply EvalSteps.add_loop_stop. exact I.
Qed.

Lemma multiplicative_before_additive_witness :
  fst (Calc.calculate ExactFloat.sem "1 + 2 * 3" (fresh ExactFloat.sem))
  = match Calc.multiplicative_step ExactFloat.sem "*" (VInt 2) (VInt 3) with
    | inl e => inl e
    | inr m => Calc.additive_step ExactFloat.sem "+" (VInt 1) m
    end /\
  run "1 + 2 * 3" = inr (VInt 7).
Proof.
  split; [| vm_eq].
  apply (multiplicative_before_additive ExactFloat.sem "1 + 2 * 3" (fresh ExactFloat.sem)
           "1" "+" "2" "*" "3"); auto.
Defined.

(* ------------------------------------------------------------------ *)
(** ** The interactive loop *)

(** [main]: every line read prints at least one message; the branch for
    an empty line ([if not user_input: continue]) is never taken, since a
    blank line already ends the session. *)
Theorem main_every_line_answered (fs : FloatSem) (st : Calc.calc fs)
  (input : option string) :
  fst (fst (Main.main_step fs st input)) <> [].
Proof.
  unfold Main.main_step.
  destruct input as [line|]; [| discriminate].
  destruct (Main.contains _ (Main.lower (Py.strip _))) eqn:Hc; [discriminate|].
  destruct (Py.strip _) as [| c u]; [discriminate Hc|].
  destruct (String.eqb _ "vars"); [destruct (bool_decide _); discriminate|].
  destruct (String.eqb _ "funcs"); [discriminate|].
  destruct (String.eqb _ "clear"); [discriminate|].
  destruct (Calc.calculate fs _ st) as [[e | v] st']; [| discriminate].
  destruct (Main.is_value_error e); discriminate.
Qed.

(** [main]: started on a calculator with no variables, no session ever
    lists variables: [calculate] leaves the table unchanged and [clear]
    empties it, so [vars] always reports that none are declared. *)
Theorem main_vars_never_listed (fs : FloatSem) (fuel : nat) (st : Calc.calc fs)
  (inputs : list string) :
  Calc.variables fs st = ∅ ->
  Forall (MainSteps.not_listing fs) (Main.main_loop fs fuel st inputs).
Proof.
  revert st inputs. induction fuel as [| f IH]; intros st inputs Hv; [constructor|].
  cbn [Main.main_loop].
  destruct (match inputs with [] => (None, []) | l :: r => (Some l, r) end)
    as [input rest].
  pose proof (MainSteps.main_step_keeps_empty fs st input Hv) as [Hout Hst].
  destruct (Main.main_step fs st input) as [[outs go] st'].
  apply Forall_app. split; [exact Hout|].
  destruct go; [exact (IH st' rest Hst) | constructor].
Qed.

Lemma main_vars_never_listed_witness :
  Forall (MainSteps.not_listing ExactFloat.sem)
    (Main.main_loop ExactFloat.sem 6 (fresh ExactFloat.sem)
       ["let y = 5"; "y"; "vars"; "clear"; "vars"]%string) /\
  Main.main_loop ExactFloat.sem 6 (fresh ExactFloat.sem)
    ["let y = 5"; "y"; "vars"; "clear"; "vars"]%string
  = [Main.Error ExactFloat.sem (UnknownVariable "lety");
     Main.Error ExactFloat.sem (UnknownVariable "y");
     Main.NoVariables ExactFloat.sem;
     Main.VariablesCleared ExactFloat.sem;
     Main.NoVariables ExactFloat.sem;
     Main.UnknownError ExactFloat.sem None].
Proof.
  split; [| vm_eq].
  apply main_vars_never_listed. reflexivity.
Defined.

(** An input whose first token is neither [(], a sign, a number nor an
    identifier (an operator such as [*] or a [)]) fails with the
    unexpected-operand error naming that token, whatever follows it. *)
Theorem unexpected_operand_rejected (fs : FloatSem) (expression : string)
  (st : Calc.calc fs) (t : string) (rest : list string) :
  Tokenizer.tokenize expression = Some (t :: rest) ->
  String.eqb t "(" = false ->
  Calc.is_additive_op t = false ->
  Tokenizer.is_digit_token t = false ->
  Tokenizer.is_identifier t = false ->
  fst (Calc.calculate fs expression st) = inl (UnexpectedOperand t).
Proof.
  intros Ht Hpar Ha Hd Hi.
  assert (Hl : String.eqb t "let" = false).
  { destruct (String.eqb_spec t "let"); [subst; discriminate | reflexivity]. }
  set (vars := Calc.variables fs st).
  apply (TopLevel.calculate_of_additive fs expression st _ (14 + 8 * length rest) t _
           (Calc.mk_calc fs vars (t :: rest) 0) Ht);
    [| reflexivity | exact Hl | | reflexivity | intros; discriminate].
  - unfold Calc.recursion_budget. cbn [length]. lia.
  - apply TopLevel.additive_of_power; [| intros; discriminate].
    apply TopLevel.power_of_unary_end; [| intros; discriminate].
    rewrite (EvalLevels.unary_primary fs _ _ t); [| reflexivity | exact Ha].
    exact (Primary.primary_other fs _ vars (t :: rest) 0 t eq_refl Hpar Hd Hi).
Qed.

Lemma unexpected_operand_rejected_witness :
  fst (Calc.calculate ExactFloat.sem "* 2" (fresh ExactFloat.sem))
  = inl (UnexpectedOperand "*").
Proof.
  apply (unexpected_operand_rejected ExactFloat.sem "* 2" (fresh ExactFloat.sem)
           "*" ["2"]%string); reflexivity.
Defined.

(** A [(] followed by a number literal, followed by the end of the
    input or by a token that is neither [)] nor an operator, fails: with
    the unexpected-end error at the end of the input, and otherwise with
    the unexpected-token error naming [)] and the token found. *)
Theorem unclosed_paren_rejected (fs : FloatSem) (expression : string)
  (st : Calc.calc fs) (a : string) (va : num (flt fs)) (post : list string) :
  Tokenizer.tokenize expression = Some ("(" :: a :: post)%string ->
  Tokenizer.is_digit_token a = true ->
  Calc.parse_number fs a = inr va ->
  match post with
  | [] => True
  | u :: _ =>
      String.eqb u ")" = false /\ Calc.token_is (Some u) "**" = false /\
      Calc.is_multiplicative_op u = false /\ Calc.is_additive_op u = false
  end ->
  fst (Calc.calculate fs expression st) =
  inl (match post with [] => UnexpectedEnd | u :: _ => UnexpectedToken ")" u end).
Proof.
  intros Ht Hd Hp Hpost.
  set (vars := Calc.variables fs st).
  set (toks := ("(" :: a :: post)%string) in *.
  set (lp := length post).
  assert (Hnext : Calc.token_is (nth_error toks 2) "**" = false /\
                  match nth_error toks 2 with
                  | Some u => Calc.is_multiplicative_op u = false | None => True end /\
                  match nth_error toks 2 with
                  | Some u => Calc.is_additive_op u = false | None => True end).
  { subst toks. destruct post as [| u r]; [repeat split|].
    destruct Hpost as (_ & H1 & H2 & H3). cbn [nth_error]. repeat split; assumption. }
  destruct Hnext as (Hs & Hm & Ha).
  pose proof (EvalLevels.expression_number fs (10 + 8 * lp) vars toks 1 a va
                eq_refl Hd Hp Hs Hm Ha) as He.
  pose proof (Primary.primary_paren fs (17 + 8 * lp) vars toks 0 va 2 eq_refl He) as Hpr.
  assert (Hres : Calc.handle_primary_expression fs (18 + 8 * lp)
                   (Calc.mk_calc fs vars toks 0) =
                 (inl (match post with [] => UnexpectedEnd
                                  | u :: _ => UnexpectedToken ")" u end),
                  Calc.mk_calc fs vars toks 2)).
  { change (18 + 8 * lp) with (S (17 + 8 * lp)).
    rewrite Hpr. subst toks. destruct post as [| u r]; [reflexivity|].
    destruct Hpost as (H0 & _). cbn [nth_error]. rewrite H0. reflexivity. }
  apply (TopLevel.calculate_of_additive fs expression st toks (22 + 8 * lp) "(" _
           (Calc.mk_calc fs vars toks 2) Ht);
    [| reflexivity | reflexivity | | reflexivity | intros; discriminate].
  - unfold Calc.recursion_budget. subst toks lp. cbn [length]. lia.
  - apply TopLevel.additive_of_power; [| intros; discriminate].
    apply TopLevel.power_of_unary_end; [| intros; discriminate].
    rewrite (EvalLevels.unary_primary fs _ _ "("%string); [exact Hres | reflexivity | reflexivity].
Qed.

Lemma unclosed_paren_rejected_witness :
  fst (Calc.calculate ExactFloat.sem "(1" (fresh ExactFloat.sem)) = inl UnexpectedEnd /\
  fst (Calc.calculate ExactFloat.sem "(1, 2)" (fresh ExactFloat.sem))
  = inl (UnexpectedToken ")" ",").
Proof.
  split.
  - apply (unclosed_paren_rejected ExactFloat.sem "(1" (fresh ExactFloat.sem)
             "1" (VInt 1) []); [reflexivity | reflexivity | reflexivity | exact I].
  - apply (unclosed_paren_rejected ExactFloat.sem "(1, 2)" (fresh ExactFloat.sem)
             "1" (VInt 1) [","; "2"; ")"]%string);
      [reflexivity | reflexivity | reflexivity | repeat split].
Defined.

(** [Tokenizer.tokenize] deletes every space before it scans, and
    [Calculator.calculate] only strips the input and tokenizes it; so
    removing the spaces of an input changes neither its tokens nor the
    result of evaluating it: [1 2] is the number [12]. *)
Theorem calculate_ignores_spaces (fs : FloatSem) (expression : string) (st : Calc.calc fs) :
  let squeezed :=
    string_of_list_ascii (Py.remove_char " " (list_ascii_of_string expression)) in
  Tokenizer.tokenize squeezed = Tokenizer.tokenize expression /\
  Calc.calculate fs squeezed st = Calc.calculate fs expression st.
Proof.
  intro squeezed.
  assert (Htok : Tokenizer.tokenize squeezed = Tokenizer.tokenize expression).
  { subst squeezed. unfold Tokenizer.tokenize.
    rewrite list_ascii_of_string_of_list_ascii, Spaces.strip_remove.
    destruct (Py.strip (list_ascii_of_string expression)) as [| c w] eqn:E;
      [reflexivity|].
    destruct (Py.remove_char " " (c :: w)) as [| d l] eqn:R.
    - rewrite <- E in R. apply Spaces.remove_strip_nil in R.
      rewrite R in E. discriminate E.
    - rewrite <- R, Spaces.remove_idem. reflexivity. }
  split; [exact Htok|].
  unfold Calc.calculate. rewrite Htok.
  subst squeezed. rewrite list_ascii_of_string_of_list_ascii, Spaces.strip_remove.
  destruct (Py.strip (list_ascii_of_string expression)) as [| c w] eqn:E; [reflexivity|].
  destruct (Py.remove_char " " (c :: w)) eqn:R; [| reflexivity].
  rewrite <- E in R. apply Spaces.remove_strip_nil in R. rewrite R in E. discriminate E.
Qed.
